(** * Donor matching and notification triggers of the Hema cloud functions

    A shallow embedding of the three Firestore triggers of the Firebase
    functions module; line numbers are those of that module:

    - [onBloodRequestCreated]: expanding-radius donor search
      ([findMatchingDonors]), the relevance filter of the agent service, and the
      notification fan-out;
    - [onMatchedDonorAdded]: the confirmation pass;
    - [onBloodRequestDeleted]: the cancellation pass;

    and of its callable functions [googlePlacesAutocomplete],
    [getPlaceDetails] and [deleteUser], with the admin mail they and
    [onProviderVerificationCreated] send.

    Firestore collections are finite maps keyed by document id, a JavaScript
    [Map] is an insertion-ordered association list, and every write or push
    send of a handler is recorded, in program order, in a list of effects.
    Functions imported from packages ([geofire.distanceBetween], [JSON.parse],
    the range queries, the clock) are parameters of the model. *)

From Stdlib Require Import ZArith QArith Qabs String Ascii List Bool Lia.
From stdpp Require Import base option list gmap strings pretty.

Set Warnings "-register-all".

Close Scope Q_scope.
Open Scope string_scope.
Open Scope Z_scope.

(** ** JavaScript values used by the handlers *)

Module JS.

(** Code units that [String.prototype.trim] strips, restricted to the
    8-bit characters of [string]: TAB, LF, VT, FF, CR and SPACE. *)
Definition isWhiteSpace (c : ascii) : bool :=
  let n := nat_of_ascii c in
  Nat.eqb n 32 || (Nat.leb 9 n && Nat.leb n 13).

Fixpoint trimStart (s : string) : string :=
  match s with
  | EmptyString => EmptyString
  | String c rest => if isWhiteSpace c then trimStart rest else s
  end.

Fixpoint trimEnd (s : string) : string :=
  match s with
  | EmptyString => EmptyString
  | String c rest =>
      match trimEnd rest with
      | EmptyString => if isWhiteSpace c then EmptyString else String c EmptyString
      | kept => String c kept
      end
  end.

(** [s.trim()] *)
Definition trim (s : string) : string := trimEnd (trimStart s).

Definition upperChar (c : ascii) : ascii :=
  let n := nat_of_ascii c in
  if Nat.leb 97 n && Nat.leb n 122 then ascii_of_nat (n - 32) else c.

(** [s.toUpperCase()] on ASCII letters *)
Fixpoint toUpperCase (s : string) : string :=
  match s with
  | EmptyString => EmptyString
  | String c rest => String (upperChar c) (toUpperCase rest)
  end.

(** Truthiness of a possibly absent string field: [undefined], [null] and
    the empty string are falsy. *)
Definition truthy (v : option string) : option string :=
  match v with
  | Some s => if String.eqb s "" then None else Some s
  | None => None
  end.

(** [a || b] on possibly absent strings, with a string default. *)
Definition orElse (v : option string) (d : string) : string :=
  match truthy v with Some s => s | None => d end.

(** [arr.includes(x)] for an array of strings. *)
Definition includes (x : string) (arr : list string) : bool :=
  existsb (String.eqb x) arr.

(** [arr.join(", ")] *)
Fixpoint join (sep : string) (arr : list string) : string :=
  match arr with
  | [] => ""
  | [x] => x
  | x :: rest => x ++ sep ++ join sep rest
  end.

(** Values produced by [JSON.parse]. *)
Inductive JSON : Type :=
| JNull
| JBool (b : bool)
| JNumber (q : Q)
| JString (s : string)
| JArray (items : list JSON)
| JObject (fields : list (string * JSON)).

(** [arr.includes(uid)] for a parsed array and a string [uid]: only a
    string element can be the same value as a string. *)
Definition includesString (uid : string) (arr : list JSON) : bool :=
  existsb (fun j => match j with JString s => String.eqb s uid | _ => false end) arr.

(** Errors that reach the [catch] of a handler. *)
Inductive Error : Type :=
| ReferenceError (identifier : string)
| TypeError (what : string).

(** *** [Map]: insertion-ordered, one entry per key *)
Section JSMap.
Context {V : Type}.

(** [m.has(k)] *)
Definition Map_has (k : string) (m : list (string * V)) : bool :=
  existsb (fun kv => String.eqb (fst kv) k) m.

(** [m.set(k, v)]: a present key keeps its position and takes the new
    value, a new key is appended. *)
Fixpoint Map_set (k : string) (v : V) (m : list (string * V)) : list (string * V) :=
  match m with
  | [] => [(k, v)]
  | (k', v') :: rest =>
      if String.eqb k' k then (k', v) :: rest else (k', v') :: Map_set k v rest
  end.

Definition Map_size (m : list (string * V)) : Z := Z.of_nat (length m).
Definition Map_keys (m : list (string * V)) : list string := map fst m.
Definition Map_values (m : list (string * V)) : list V := map snd m.
End JSMap.

End JS.

(** ** Data model: documents of the collections the triggers read *)

Record GeoPoint := { latitude : Q; longitude : Q }.

(** A document of [donors]. [geo] is absent when [geo] or [geo.geopoint]
    is missing. *)
Record Donor := {
  bloodGroup : option string;
  geo : option GeoPoint;
  uid : option string;
  isAvailable : bool
}.

Record Doc := { id : string; data : Donor }.

(** A document of [users]. *)
Record UserData := {
  fcmToken : option string;
  firstName : option string;
  lastName : option string;
  daytimeAddress : option string;
  nighttimeAddress : option string
}.

(** A document of [healthcare_providers]. *)
Record ProviderData := {
  providerGeo : option GeoPoint;
  name : option string;
  organizationName : option string;
  organisationName : option string;
  address : option string
}.

(** A document of [healthcare_providers/{providerId}/requests]. A list
    field is [None] when it is missing or not an array. *)
Record RequestData := {
  requestBloodGroup : option (list string);
  unitsRequested : option Z;
  requestedBy : option string;
  title : option string;
  matchedDonors : option (list string);
  foundDonors : option (list string)
}.

(** The value stored in [matchingDonors]:
    [{ ...donor, fcmToken: userData.fcmToken, uid: donorUid }]. *)
Record MatchedDonor := {
  donor : Donor;
  donorToken : string;
  donorUid : string
}.

Abbreviation DonorMap := (list (string * MatchedDonor)).

(** What [findMatchingDonors] returns. *)
Record SearchState := {
  matchingDonors : DonorMap;
  expandedToMax : bool;
  currentRadiusKm : Z
}.

(** ** [findMatchingDonors] (lines 269-356) *)

Definition maxRadiusKm : Z := 50.
Definition stepKm : Z := 2.
Definition startRadiusKm : Z := 2.

(** [requestedGroups.map(bg => bg.trim().toUpperCase())] and
    [(donor.bloodGroup || "").trim().toUpperCase()] *)
Definition standardize (bg : string) : string := JS.toUpperCase (JS.trim bg).

Definition donorBloodGroup (d : Donor) : string :=
  standardize (JS.orElse (bloodGroup d) "").

Section Search.
(** [geofire.distanceBetween], in kilometres. *)
Variable distanceBetween : GeoPoint -> GeoPoint -> Q.
(** The [users] collection. *)
Variable users : gmap string UserData.
(** The snapshots of the geohash range queries issued for a radius. *)
Variable snapshotsAt : Z -> list (list Doc).

(** The arguments [center], [requestedGroups] and [targetDonorCount]. *)
Variable center : GeoPoint.
Variable requested : list string.
Variable targetDonorCount : Z.

Definition standardizedRequestedGroups : list string := map standardize requested.

(** Lines 299-334 for one document: the record to store, or [None] when
    the document is skipped. *)
Definition examine (radius : Z) (doc : Doc) : option MatchedDonor :=
  let d := data doc in
  match geo d with
  | None => None
  | Some geopoint =>
      let distance := distanceBetween geopoint center in
      match JS.truthy (uid d) with
      | None => None
      | Some donorUid =>
          match users !! donorUid with
          | None => None
          | Some userData =>
              if Qle_bool distance (inject_Z radius)
                 && JS.includes (donorBloodGroup d) standardizedRequestedGroups
                 && isAvailable d
              then
                match JS.truthy (fcmToken userData) with
                | Some token => Some {| donor := d; donorToken := token; donorUid := donorUid |}
                | None => None
                end
              else None
          end
      end
  end.

(** The inner loop over [snap.docs] (lines 297-344), with its [continue]
    and [break]. *)
Fixpoint forDocs (radius : Z) (docs : list Doc) (m : DonorMap) : DonorMap :=
  match docs with
  | [] => m
  | doc :: rest =>
      if JS.Map_has (id doc) m then forDocs radius rest m
      else
        match examine radius doc with
        | Some md =>
            let m' := JS.Map_set (id doc) md m in
            if targetDonorCount <=? JS.Map_size m' then m' else forDocs radius rest m'
        | None => forDocs radius rest m
        end
  end.

(** The loop over [snapshots] (lines 295-346). *)
Fixpoint forSnapshots (radius : Z) (snaps : list (list Doc)) (m : DonorMap) : DonorMap :=
  match snaps with
  | [] => m
  | snap :: rest =>
      let m' := forDocs radius snap m in
      if targetDonorCount <=? JS.Map_size m' then m' else forSnapshots radius rest m'
  end.

(** The accepted map after the queries of the current radius. *)
Definition pass (st : SearchState) : DonorMap :=
  forSnapshots (currentRadiusKm st) (snapshotsAt (currentRadiusKm st)) (matchingDonors st).

(** Lines 350-353. *)
Definition advance (st : SearchState) (m' : DonorMap) : SearchState :=
  if JS.Map_size m' <? targetDonorCount then
    {| matchingDonors := m';
       expandedToMax :=
         if maxRadiusKm <? currentRadiusKm st + stepKm then true else expandedToMax st;
       currentRadiusKm := currentRadiusKm st + stepKm |}
  else
    {| matchingDonors := m';
       expandedToMax := expandedToMax st;
       currentRadiusKm := currentRadiusKm st |}.

(** The condition of the [while] (line 283). *)
Definition loopCond (st : SearchState) : bool :=
  (currentRadiusKm st <=? maxRadiusKm) && (JS.Map_size (matchingDonors st) <? targetDonorCount).

(** The [while] loop; [None] when [fuel] iterations were not enough. *)
Fixpoint whileLoop (fuel : nat) (st : SearchState) : option SearchState :=
  if loopCond st then
    match fuel with
    | O => None
    | S fuel' => whileLoop fuel' (advance st (pass st))
    end
  else Some st.

(** The radius steps the loop goes through: the radius examined and the
    accepted map when its queries have been processed. *)
Fixpoint radiusSteps (fuel : nat) (st : SearchState) : list (Z * DonorMap) :=
  if loopCond st then
    match fuel with
    | O => []
    | S fuel' => (currentRadiusKm st, pass st) :: radiusSteps fuel' (advance st (pass st))
    end
  else [].

Definition initialState : SearchState :=
  {| matchingDonors := []; expandedToMax := false; currentRadiusKm := startRadiusKm |}.

(** One iteration per radius 2, 4, ..., 50. *)
Definition maxIterations : nat := 25.

Definition findMatchingDonors : option SearchState := whileLoop maxIterations initialState.

End Search.

(** The number of radii from the current one up to the ceiling: the
    iterations the loop can still make. *)
Definition remainingSteps (st : SearchState) : Z :=
  (maxRadiusKm - currentRadiusKm st) / stepKm + 1.

(** ** The relevance filter of the agent service (lines 475-529) *)

(** What [axios.post] gives to the handler: nothing it can read (the
    promise is rejected on a network error, a timeout or an error status, or
    the response has no [data]; each throws inside the [try]), or a response
    with its status and [data.reply]. *)
Inductive AxiosResult : Type :=
| AxiosRejects
| AxiosResponse (status : Z) (reply : option string).

Section Filter.
(** [JSON.parse]; [None] when it throws. *)
Variable JSON_parse : string -> option JS.JSON.

(** [Array.from(matchingDonors.values()).map(d => d.uid)] *)
Definition donorIdsOf (m : DonorMap) : list string := map donorUid (JS.Map_values m).

(** Lines 515-520: the new map, keyed by [donor.uid]. *)
Definition keepListed (filteredDonorIds : list JS.JSON) (m : DonorMap) : DonorMap :=
  fold_left
    (fun acc d =>
       if JS.includesString (donorUid d) filteredDonorIds
       then JS.Map_set (donorUid d) d acc else acc)
    (JS.Map_values m) [].

(** The value of [filteredMatchingDonors] after the filtering step. *)
Definition filterDonors (m : DonorMap) (response : AxiosResult) : DonorMap :=
  match response with
  | AxiosRejects => m
  | AxiosResponse status reply =>
      match JS.truthy reply with
      | Some text =>
          if status =? 200 then
            let filteredDonorIds :=
              match JSON_parse text with
              | Some v => v
              | None => JS.JArray (map JS.JString (donorIdsOf m))
              end in
            match filteredDonorIds with
            | JS.JArray ids => keepListed ids m
            | _ => m
            end
          else m
      | None => m
      end
  end.

End Filter.

(** ** Side effects of the handlers *)

(** The server timestamp sentinel of Firestore. *)
Inductive Timestamp : Type := serverTimestamp.

(** A document of [users/{uid}/matches]. *)
Record MatchRecord := {
  status : string;
  providerName : string;
  createdAt : Timestamp
}.

Inductive Effect : Type :=
(** [admin.messaging().sendEachForMulticast({notification, data, tokens})] *)
| sendEachForMulticast (tokens : list string) (notificationTitle body : string)
    (payload : list (string * string))
(** [collection(c).doc(docId).collection("messages").add(...)] *)
| messagesAdd (collection docId : string)
(** [requestRef.update({ foundDonors })] *)
| requestUpdate (providerId requestId : string) (donorIds : list string)
(** [users/{donorUid}/matches/{requestId}.set(...)] *)
| matchSet (uidOfDonor requestId : string) (record : MatchRecord).

(** How a handler ends: it returns, or an error reaches a [catch]. *)
Inductive Exit : Type :=
| Returned
| Caught (e : JS.Error).

(** ** [onBloodRequestCreated] (lines 261-592) *)

(** [requestData.unitsRequested || 1] *)
Definition unitsNeededOf (requestData : RequestData) : Z :=
  match unitsRequested requestData with
  | Some 0 | None => 1
  | Some n => n
  end.

(** [Math.min(Math.max(unitsNeeded, 3), 5)] *)
Definition targetOf (unitsNeeded : Z) : Z := Z.min (Z.max unitsNeeded 3) 5.

(** [sendNoDonorNotification] (lines 359-401) *)
Definition sendNoDonorNotification (users : gmap string UserData)
    (requestId : string) (requestData : RequestData) : list Effect :=
  match JS.truthy (requestedBy requestData) with
  | Some requesterId =>
      match users !! requesterId with
      | Some userData =>
          match JS.truthy (fcmToken userData) with
          | Some token =>
              [sendEachForMulticast [token]
                 (JS.orElse (title requestData) "Blood Request")
                 "Search completed. No available donor was found within your service area. Please proceed with alternative sourcing."
                 [("requestId", requestId); ("notificationType", "NO_DONORS_FOUND")]]
          | None => []
          end
      | None => []
      end
  | None => []
  end.

(** The elements of a [Set] filled from a list, in insertion order. *)
Definition uniqueInOrder (l : list string) : list string :=
  fold_left (fun seen x => if JS.includes x seen then seen else (seen ++ [x])%list) l [].

(** [writeMessagesToDonors] (lines 404-423) *)
Definition writeMessagesToDonors (m : DonorMap) : list Effect :=
  map (messagesAdd "users") (uniqueInOrder (donorIdsOf m)).

Definition dquote : string := String (ascii_of_nat 34) EmptyString.

(** [JSON.stringify] of an object of optional string fields; no character of
    the values is escaped. *)
Definition stringifyFields (fields : list (string * option string)) : string :=
  "{" ++ JS.join ","
    (omap (fun kv => match snd kv with
                     | Some v => Some (dquote ++ fst kv ++ dquote ++ ":" ++ dquote ++ v ++ dquote)
                     | None => None
                     end) fields) ++ "}".

(** [sendDonorNotification] (lines 426-438) with the message of lines
    562-576. *)
Definition sendDonorNotification (m : DonorMap) (requestId : string)
    (providerData : ProviderData) (requestedGroups : list string) (radius : Z) : list Effect :=
  match JS.Map_values m with
  | [] => []
  | values =>
      [sendEachForMulticast (map donorToken values)
         "Urgent: Blood Donors Needed"
         ("Emergency request for " ++ JS.join ", " requestedGroups ++ " blood within "
            ++ pretty radius ++ "km.")
         [("requestJson",
           stringifyFields
             [("requestId", Some requestId);
              ("hospitalName",
               match JS.truthy (name providerData) with
               | Some n => Some n
               | None => organisationName providerData
               end);
              ("bloodGroups", Some (JS.join ", " requestedGroups))])]]
  end.

(** Bindings visible where [messageContent] is built (line 539): the
    imports and exports of the module, the variables of the handler and
    its helpers, and the constants of the [try] block declared before it.
    The constants [before] and [after] of the other two handlers are local
    to them. *)
Definition scopeAtMessageContent : list string :=
  [ "onCall"; "HttpsError"; "onDocumentCreated"; "onDocumentUpdated";
    "onDocumentWritten"; "defineSecret"; "logger"; "axios"; "admin"; "geofire";
    "nodemailer"; "googlePlacesApiKey"; "sendAdminNotification";
    "googlePlacesAutocomplete"; "getPlaceDetails"; "deleteUser";
    "onBloodRequestCreated"; "onMatchedDonorAdded"; "onBloodRequestDeleted";
    "onProviderVerificationCreated";
    "event"; "requestData"; "providerId"; "requestId";
    "findMatchingDonors"; "sendNoDonorNotification"; "writeMessagesToDonors";
    "sendDonorNotification"; "updateRequestWithFoundDonors";
    "providerRef"; "providerDoc"; "providerData"; "providerLoc"; "center";
    "requestedGroups"; "unitsNeeded"; "targetDonorCount";
    "matchingDonors"; "expandedToMax"; "currentRadiusKm";
    "filteredMatchingDonors"; "requestRef" ].

(** The identifiers the initializer of [messageContent] reads, in the order
    of evaluation (lines 540-560). *)
Definition messageContentReads : list string :=
  [ "after"; "after"; "after"; "after"; "after"; "after";
    "providerName"; "providerData"; "donorUid"; "donorDataMsg"; "requestId";
    "event"; "providerDocSnap"; "after"; "providerName";
    "providerData"; "event"; "providerDocSnap" ].

(** Reading an identifier that has no binding throws. *)
Definition firstUnbound (scope reads : list string) : option string :=
  List.find (fun x => negb (JS.includes x scope)) reads.

Section Created.
Variable distanceBetween : GeoPoint -> GeoPoint -> Q.
Variable JSON_parse : string -> option JS.JSON.
Variable providers : gmap string ProviderData.
Variable users : gmap string UserData.
Variable snapshotsAt : Z -> list (list Doc).
(** The outcome of the call to the agent service. *)
Variable filterResponse : AxiosResult.

(** Steps 4 and 5 (lines 537-586). *)
Definition notifyAndRecord (providerId requestId : string) (providerData : ProviderData)
    (requestedGroups : list string) (radius : Z) (filtered : DonorMap) : Exit * list Effect :=
  match firstUnbound scopeAtMessageContent messageContentReads with
  | Some x => (Caught (JS.ReferenceError x), [])
  | None =>
      (Returned,
       (writeMessagesToDonors filtered
          ++ sendDonorNotification filtered requestId providerData requestedGroups radius
          ++ [requestUpdate providerId requestId (JS.Map_keys filtered)])%list)
  end.

(** The candidates that survive the search and the filter, when the handler
    gets as far as the filter. *)
Definition survivors (providerId : string) (requestData : RequestData) : option DonorMap :=
  match providers !! providerId with
  | Some providerData =>
      match providerGeo providerData with
      | Some center =>
          let requestedGroups := default [] (requestBloodGroup requestData) in
          match findMatchingDonors distanceBetween users snapshotsAt center requestedGroups
                  (targetOf (unitsNeededOf requestData)) with
          | Some found =>
              if JS.Map_size (matchingDonors found) =? 0 then None
              else Some (filterDonors JSON_parse (matchingDonors found) filterResponse)
          | None => None
          end
      | None => None
      end
  | None => None
  end.

Definition onBloodRequestCreated (providerId requestId : string)
    (requestData : RequestData) : Exit * list Effect :=
  match providers !! providerId with
  | None => (Returned, [])
  | Some providerData =>
      match providerGeo providerData with
      | None => (Caught (JS.TypeError "providerLoc.geopoint"), [])
      | Some center =>
          let requestedGroups := default [] (requestBloodGroup requestData) in
          let unitsNeeded := unitsNeededOf requestData in
          let targetDonorCount := targetOf unitsNeeded in
          match findMatchingDonors distanceBetween users snapshotsAt center requestedGroups
                  targetDonorCount with
          | None => (Returned, [])
          | Some found =>
              if JS.Map_size (matchingDonors found) =? 0 then
                (Returned,
                 if expandedToMax found || (50 <? currentRadiusKm found)
                 then sendNoDonorNotification users requestId requestData else [])
              else
                let filteredMatchingDonors :=
                  filterDonors JSON_parse (matchingDonors found) filterResponse in
                if JS.Map_size filteredMatchingDonors =? 0 then
                  (Returned, sendNoDonorNotification users requestId requestData)
                else
                  notifyAndRecord providerId requestId providerData requestedGroups
                    (currentRadiusKm found) filteredMatchingDonors
          end
      end
  end.

End Created.

(** ** [onMatchedDonorAdded] (lines 594-711) *)

(** The confirmed-donor list of a snapshot; empty when the field is not an
    array. *)
Definition confirmedDonors (snapshot : RequestData) : list string :=
  default [] (matchedDonors snapshot).

(** [after.matchedDonors.filter(uid => !before.matchedDonors.includes(uid))] *)
Definition newDonorsOf (before after : list string) : list string :=
  List.filter (fun uid => negb (JS.includes uid before)) after.

(** [hour >= 6 && hour < 18] *)
Definition isDaytime (hour : Z) : bool := (6 <=? hour) && (hour <? 18).

(** [`${donorData.firstName || ""} ${donorData.lastName || ""}`.trim()] *)
Definition donorNameOf (donorData : UserData) : string :=
  JS.trim (JS.orElse (firstName donorData) "" ++ " " ++ JS.orElse (lastName donorData) "").

Definition areaOf (hour : Z) (donorData : UserData) : option string :=
  if isDaytime hour then daytimeAddress donorData else nighttimeAddress donorData.

Definition newline : string := String (ascii_of_nat 10) EmptyString.

(** The body of the notification to the requester (line 638). *)
Definition confirmationBody (hour : Z) (donorData : UserData) : string :=
  "Name: " ++ donorNameOf donorData ++ newline
    ++ "Area: " ++ JS.orElse (areaOf hour donorData) "Unknown" ++ newline
    ++ "Kindly prepare for donation.".

(** [organizationName || organisationName || name || ""] of the provider
    document, or of [{}] when it does not exist. *)
Definition providerNameOf (providerDoc : option ProviderData) : string :=
  match providerDoc with
  | Some p =>
      JS.orElse (organizationName p) (JS.orElse (organisationName p) (JS.orElse (name p) ""))
  | None => ""
  end.

Section MatchedDonorAdded.
Variable providers : gmap string ProviderData.
Variable users : gmap string UserData.
(** [new Date().getHours()] as read in the [i]-th iteration of the loop over
    the new donors. *)
Variable hourAt : nat -> Z.

(** One iteration of the loop of lines 623-708. *)
Definition confirmDonor (requestId token provName : string) (i : nat) (uidOfDonor : string)
    : list Effect :=
  match users !! uidOfDonor with
  | None => []
  | Some donorData =>
      [ sendEachForMulticast [token]
          "A suitable donor has confirmed availability."
          (confirmationBody (hourAt i) donorData)
          [("requestId", requestId); ("donorId", uidOfDonor);
           ("notificationType", "DONOR_MATCHED")];
        matchSet uidOfDonor requestId
          {| status := "matched"; providerName := provName; createdAt := serverTimestamp |};
        messagesAdd "donors" uidOfDonor ]
  end.

Definition onMatchedDonorAdded (providerId requestId : string)
    (before after : RequestData) : list Effect :=
  match matchedDonors before, matchedDonors after with
  | Some beforeList, Some afterList =>
      let newDonors := newDonorsOf beforeList afterList in
      if Nat.eqb (length newDonors) 0 then []
      else
        match JS.truthy (requestedBy after) with
        | None => []
        | Some requesterId =>
            match users !! requesterId with
            | None => []
            | Some userData =>
                match JS.truthy (fcmToken userData) with
                | None => []
                | Some token =>
                    let provName := providerNameOf (providers !! providerId) in
                    concat (imap (confirmDonor requestId token provName) newDonors)
                end
            end
        end
  | _, _ => []
  end.

End MatchedDonorAdded.

(** ** [onBloodRequestDeleted] (lines 713-759) *)

(** [doc.exists && doc.data().fcmToken], kept by [filter(Boolean)] when
    truthy. *)
Definition tokenOf (users : gmap string UserData) (uidOfDonor : string) : option string :=
  match users !! uidOfDonor with
  | Some userData => JS.truthy (fcmToken userData)
  | None => None
  end.




(** The tokens a handler pushed to. *)
Definition pushedTokens (effects : list Effect) : list string :=
  concat (map (fun e => match e with
                        | sendEachForMulticast tokens _ _ _ => tokens
                        | _ => []
                        end) effects).


(** ** The callable functions and the admin mail (lines 16-259, 761-783) *)

Definition lowerChar (c : ascii) : ascii :=
  let n := nat_of_ascii c in
  if Nat.leb 65 n && Nat.leb n 90 then ascii_of_nat (n + 32) else c.

(** [s.toLowerCase()] on ASCII letters *)
Fixpoint toLowerCase (s : string) : string :=
  match s with
  | EmptyString => EmptyString
  | String c rest => String (lowerChar c) (toLowerCase rest)
  end.

(** [new HttpsError(code, message)] *)
Inductive HttpsError : Type := httpsError (code message : string).

Definition codeOf (e : HttpsError) : string := match e with httpsError c _ => c end.
Definition messageOf (e : HttpsError) : string := match e with httpsError _ m => m end.

(** An error of axios: [error.message], and
    [error.response.data.error.message] when the service answered with an
    error body. *)
Record AxiosError := {
  axiosMessage : string;
  apiMessage : option string
}.

(** What reaches the [catch] of a callable. [ThrownType reading] is the
    [TypeError] of reading the property [reading] of [undefined]. *)
Inductive Thrown : Type :=
| ThrownHttps (e : HttpsError)
| ThrownAxios (e : AxiosError)
| ThrownType (reading : string)
| ThrownBackend (backendMessage : string).

(** [error.message] *)
Definition thrownMessage (t : Thrown) : string :=
  match t with
  | ThrownHttps e => messageOf e
  | ThrownAxios e => axiosMessage e
  | ThrownType reading =>
      "Cannot read properties of undefined (reading '" ++ reading ++ "')"
  | ThrownBackend m => m
  end.

(** [(error.response && error.response.data && error.response.data.error &&
    error.response.data.error.message) || error.message] *)
Definition apiOrOwnMessage (t : Thrown) : string :=
  match t with
  | ThrownAxios e => JS.orElse (apiMessage e) (axiosMessage e)
  | _ => thrownMessage t
  end.

(** *** [googlePlacesAutocomplete] (lines 64-138) *)

(** [request.data] of the autocomplete call. *)
Record AutocompleteData := {
  input : option string;
  locationType : option string;
  regionCode : option string;
  cityContext : option string
}.

(** The body posted to the Places service. *)
Record AutocompleteBody := {
  bodyInput : string;
  includedRegionCodes : list string;
  languageCode : string;
  includedPrimaryTypes : option (list string)
}.

(** A suggestion of the response: [placePrediction] may be absent, and in
    it [text]; [textOf] is [text.text]. *)
Record PlacePrediction := {
  placeId : option string;
  textOf : option (option string)
}.

Record Suggestion := { placePrediction : option PlacePrediction }.

Inductive PlacesPostResult : Type :=
| PostRejects (e : AxiosError)
| PostResponse (suggestions : option (list Suggestion)).

(** An element of the [suggestions] the callable returns. *)
Record SuggestionOut := {
  outPlaceId : option string;
  description : option string
}.

(** A template literal prints a missing value as [undefined]. *)
Definition interpolate (v : option string) : string :=
  match v with Some s => s | None => "undefined" end.

(** Lines 83-99. *)
Definition primaryTypesOf (locationType : option string) : list string :=
  match locationType with
  | Some t =>
      if String.eqb t "city" then ["locality"]
      else if String.eqb t "neighborhood" then ["neighborhood"; "sublocality"]
      else if String.eqb t "facility" then ["hospital"; "doctor"; "pharmacy"]
      else []
  | None => []
  end.

(** Lines 75-103. *)
Definition autocompleteBody (text : string) (data : AutocompleteData) : AutocompleteBody :=
  let types := primaryTypesOf (locationType data) in
  {| bodyInput :=
       match locationType data with
       | Some t =>
           if String.eqb t "neighborhood"
           then text ++ ", " ++ interpolate (cityContext data) else text
       | None => text
       end;
     includedRegionCodes :=
       [match JS.truthy (regionCode data) with
        | Some rc => toLowerCase rc
        | None => "ng"
        end];
     languageCode := "en";
     includedPrimaryTypes :=
       if Nat.ltb 0 (length types) then Some types else None |}.

(** The callback of [map] (lines 120-123). *)
Definition suggestionOut (s : Suggestion) : Thrown + SuggestionOut :=
  match placePrediction s with
  | None => inl (ThrownType "placeId")
  | Some p =>
      match textOf p with
      | None => inl (ThrownType "text")
      | Some t => inr {| outPlaceId := placeId p; description := t |}
      end
  end.

(** [suggestions.map(...)]: the first callback that throws ends the map. *)
Fixpoint suggestionsOut (l : list Suggestion) : Thrown + list SuggestionOut :=
  match l with
  | [] => inr []
  | s :: rest =>
      match suggestionOut s with
      | inl t => inl t
      | inr o =>
          match suggestionsOut rest with
          | inl t => inl t
          | inr os => inr (o :: os)
          end
      end
  end.

(** The callable, given how the Places service answers a body: the bodies
    posted, and the error thrown to the client or the suggestions returned. *)
Definition googlePlacesAutocomplete (post : AutocompleteBody -> PlacesPostResult)
    (data : AutocompleteData) : list AutocompleteBody * (HttpsError + list SuggestionOut) :=
  let rethrow (t : Thrown) := inl (httpsError "internal" (apiOrOwnMessage t)) in
  match JS.truthy (input data) with
  | None => ([], rethrow (ThrownHttps (httpsError "invalid-argument" "Input required.")))
  | Some text =>
      let requestBody := autocompleteBody text data in
      ([requestBody],
       match post requestBody with
       | PostRejects e => rethrow (ThrownAxios e)
       | PostResponse suggestions =>
           match suggestionsOut (default [] suggestions) with
           | inl t => rethrow t
           | inr outs => inr outs
           end
       end)
  end.

(** *** [getPlaceDetails] (lines 143-181) *)

(** [response.data] of the details call: [location], and
    [displayName && displayName.text]. *)
Record PlaceDetails := {
  location : option GeoPoint;
  displayNameText : option string
}.

Inductive PlacesGetResult : Type :=
| GetRejects (e : AxiosError)
| GetResponse (details : PlaceDetails).

Record PlaceOut := {
  lat : Q;
  lng : Q;
  placeName : string
}.

Definition placeUrl (place : string) : string :=
  "https://places.googleapis.com/v1/places/" ++ place.

(** The callable, given how the Places service answers a URL: the URLs
    fetched, and the error thrown to the client or the place returned. *)
Definition getPlaceDetails (get : string -> PlacesGetResult) (place : option string)
    : list string * (HttpsError + PlaceOut) :=
  let rethrow (t : Thrown) := inl (httpsError "internal" (thrownMessage t)) in
  match JS.truthy place with
  | None => ([], rethrow (ThrownHttps (httpsError "invalid-argument" "placeId required.")))
  | Some p =>
      ([placeUrl p],
       match get (placeUrl p) with
       | GetRejects e => rethrow (ThrownAxios e)
       | GetResponse result =>
           match location result with
           | None => rethrow (ThrownHttps (httpsError "not-found" "No coordinates."))
           | Some point =>
               inr {| lat := latitude point; lng := longitude point;
                      placeName := JS.orElse (displayNameText result) "" |}
           end
       end)
  end.

(** *** [sendAdminNotification] (lines 16-58) *)

Definition adminEmail : string := "hema.app.01@gmail.com".

(** What the mail says under Details, before it is printed as text. *)
Inductive MailDetails : Type :=
(** [JSON.stringify(userDoc.data(), null, 2)] *)
| detailsOfUser (userData : UserData)
(** [JSON.stringify({ uid, error: "User document not found" }, null, 2)] *)
| detailsOfMissingUser (uidOfUser : string)
(** [JSON.stringify(docData, null, 2)] of a verification document *)
| detailsOfVerification (docData : string)
(** [No details provided], for an empty message *)
| noDetails.

Record Mail := {
  mailFrom : string;
  mailTo : string;
  subject : string;
  details : MailDetails
}.

Definition defaultSubject : string := "🚨 Input Needed: Hema Admin Alert".

(** The sender, with the display name in double quotes. *)
Definition mailSender : string :=
  dquote ++ "Hema Provider Verification Service" ++ dquote ++ " <" ++ adminEmail ++ ">".

(** The options of the mail (lines 19-47); [receiver] is
    [process.env.ADMIN_RECEIVER_EMAIL]. Of the HTML of the mail only the
    text under Details varies; [details] is that text. *)
Definition mailOptions (receiver : option string) (message : option MailDetails)
    (subjectGiven : option string) : Mail :=
  {| mailFrom := mailSender;
     mailTo := JS.orElse receiver adminEmail;
     subject := JS.orElse subjectGiven defaultSubject;
     details := default noDetails message |}.

(** [sendAdminNotification]: the mail when the transport takes it, and the
    boolean returned; a failing transport is caught. *)
Definition sendAdminNotification (transport : Mail -> bool) (receiver : option string)
    (message : option MailDetails) (subjectGiven : option string) : list Mail * bool :=
  let mail := mailOptions receiver message subjectGiven in
  if transport mail then ([mail], true) else ([], false).

(** *** [onProviderVerificationCreated] (lines 761-783) *)

(** [docData] is the data of the new document, [None] when it has none;
    the mails delivered. *)
Definition onProviderVerificationCreated (transport : Mail -> bool)
    (receiver : option string) (docData : option string) : list Mail :=
  match docData with
  | None => []
  | Some doc =>
      fst (sendAdminNotification transport receiver (Some (detailsOfVerification doc))
             (Some "Healthcare Provider Verification"))
  end.

(** *** [deleteUser] (lines 183-259) *)

(** The fields [deleteUser] adds to a document of [users]. *)
Record DeletionMark := {
  markedForDeletion : bool;
  deletionScheduledAt : Z;
  updatedAt : Timestamp
}.

(** The stores [deleteUser] works on: the collections [users] (with the
    deletion fields kept beside the profile fields), [donors],
    [healthcare_providers] and [blood_requests] (each request with its
    [requesterId]), the accounts of Firebase Auth, and the admin mails
    delivered. *)
Record Backend := {
  usersCol : gmap string UserData;
  deletionMarks : gmap string DeletionMark;
  donorsCol : gmap string Donor;
  providersCol : gmap string ProviderData;
  bloodRequests : gmap string string;
  authUsers : gset string;
  sentMail : list Mail
}.

Definition deleted : string :=
  "Account deleted. Your data will be permanently removed from our servers in 30 days.".

Section DeleteUser.
Variable transport : Mail -> bool.
Variable receiver : option string.
(** The date thirty days after a date ([setDate(getDate() + 30)]). *)
Variable thirtyDaysAfter : Z -> Z.
(** The messages of the errors of Firestore and of Firebase Auth for a
    missing document and a missing account. *)
Variable noDocumentMessage : string -> string.
Variable noAccountMessage : string -> string.

(** The steps after the authentication check (lines 194-251); [update]
    fails on a document that does not exist, [delete] does not. *)
Definition deleteUserSteps (now : Z) (userId : string) (b : Backend)
    : Backend * (Thrown + string) :=
  let userDoc := usersCol b !! userId in
  let mails :=
    fst (sendAdminNotification transport receiver
           (Some (match userDoc with
                  | Some userData => detailsOfUser userData
                  | None => detailsOfMissingUser userId
                  end))
           (Some "Account Deletion")) in
  let mailed :=
    {| usersCol := usersCol b; deletionMarks := deletionMarks b; donorsCol := donorsCol b;
       providersCol := providersCol b; bloodRequests := bloodRequests b;
       authUsers := authUsers b; sentMail := (sentMail b ++ mails)%list |} in
  match userDoc with
  | None => (mailed, inl (ThrownBackend (noDocumentMessage userId)))
  | Some _ =>
      let cleaned :=
        {| usersCol := usersCol b;
           deletionMarks :=
             <[userId := {| markedForDeletion := true;
                            deletionScheduledAt := thirtyDaysAfter now;
                            updatedAt := serverTimestamp |}]> (deletionMarks b);
           donorsCol :=
             delete (userId ++ "_nighttime") (delete (userId ++ "_daytime") (donorsCol b));
           providersCol := delete userId (providersCol b);
           bloodRequests := filter (fun entry => snd entry <> userId) (bloodRequests b);
           authUsers := authUsers b;
           sentMail := sentMail mailed |} in
      if decide (userId ∈ authUsers b) then
        ({| usersCol := usersCol cleaned; deletionMarks := deletionMarks cleaned;
            donorsCol := donorsCol cleaned; providersCol := providersCol cleaned;
            bloodRequests := bloodRequests cleaned;
            authUsers := authUsers b ∖ {[userId]}; sentMail := sentMail cleaned |},
         inr deleted)
      else (cleaned, inl (ThrownBackend (noAccountMessage userId)))
  end.

(** The callable: [authUid] is [request.auth && request.auth.uid]. *)
Definition deleteUser (now : Z) (authUid : option string) (b : Backend)
    : Backend * (HttpsError + string) :=
  let rethrow (t : Thrown) :=
    inl (httpsError "internal" ("Failed to delete account: " ++ thrownMessage t)) in
  match JS.truthy authUid with
  | None =>
      (b, rethrow (ThrownHttps (httpsError "unauthenticated"
                                  "User must be authenticated to delete their account.")))
  | Some userId =>
      match deleteUserSteps now userId b with
      | (b', inl t) => (b', rethrow t)
      | (b', inr text) => (b', inr text)
      end
  end.

End DeleteUser.

(** ** Vocabulary of the specification *)

(** The bound of the specification on the number of radius steps:
    the ceiling of (ceiling - start) / step, plus one. *)
Definition iterationBound : nat :=
  Z.to_nat ((maxRadiusKm - startRadiusKm + stepKm - 1) / stepKm + 1).

(** The outcomes of the filtering step that the specification tells apart. *)
Inductive FilterOutcome : Type :=
| callFails
| invalidResponse
| replyNotParseable
| parsedNotAList
| parsedList (ids : list JS.JSON).

Definition outcomeOf (JSON_parse : string -> option JS.JSON) (response : AxiosResult)
    : FilterOutcome :=
  match response with
  | AxiosRejects => callFails
  | AxiosResponse status reply =>
      match JS.truthy reply with
      | Some text =>
          if status =? 200 then
            match JSON_parse text with
            | None => replyNotParseable
            | Some (JS.JArray ids) => parsedList ids
            | Some _ => parsedNotAList
            end
          else invalidResponse
      | None => invalidResponse
      end
  end.


(** ** A scenario to run the model on

    The end-to-end example of the specification: a provider at (6.50, 3.30),
    five donors of a requested group at 1.5, 3, 4.5, 7 and 9.5 km and two
    donors of another group at 2 km, all on the meridian of the provider. *)

Module Scenario.

(** Distance along a meridian, at 111 km per degree of latitude; stands
    for [geofire.distanceBetween] on points of equal longitude. *)
Definition meridianDistance (a b : GeoPoint) : Q :=
  (Qabs (latitude a - latitude b) * 111)%Q.

Definition center : GeoPoint := {| latitude := 13 # 2; longitude := 33 # 10 |}.

(** The point [km] kilometres north of the provider. *)
Definition north (km : Q) : GeoPoint :=
  {| latitude := (13 # 2) + km / 111; longitude := 33 # 10 |}%Q.

Definition donorDoc (owner kind group : string) (km : Q) : Doc :=
  {| id := owner ++ "_" ++ kind;
     data := {| bloodGroup := Some group; geo := Some (north km);
                uid := Some owner; isAvailable := true |} |}.

Definition profile (token : option string) (first : string) : UserData :=
  {| fcmToken := token; firstName := Some first; lastName := Some "Obi";
     daytimeAddress := Some "Ikeja"; nighttimeAddress := Some "Yaba" |}.

Definition users : gmap string UserData :=
  list_to_map
    [ ("u1", profile (Some "token-u1") "Ada"); ("u2", profile (Some "token-u2") "Bola");
      ("u3", profile (Some "token-u3") "Chidi"); ("u4", profile (Some "token-u4") "Dayo");
      ("u5", profile (Some "token-u5") "Efe"); ("u6", profile (Some "token-u6") "Femi");
      ("u7", profile (Some "token-u7") "Gbenga");
      ("requester", profile (Some "token-requester") "Halima");
      ("silent", profile None "Ife") ].

Definition donors : list Doc :=
  [ donorDoc "u5" "daytime" "O+" (19 # 2); donorDoc "u6" "daytime" "A+" 2;
    donorDoc "u1" "daytime" " o+ " (3 # 2); donorDoc "u2" "daytime" "O-" 3;
    donorDoc "u7" "daytime" "B+" 2; donorDoc "u3" "daytime" "o+" (9 # 2);
    donorDoc "u4" "daytime" "O+" 7 ].

(** The range queries over-fetch: every radius gets all the documents, in
    two snapshots. *)
Definition snapshotsAt (radius : Z) : list (list Doc) := [take 3 donors; drop 3 donors].

(** Range queries that only find the donors of the other groups. *)
Definition otherGroupsAt (radius : Z) : list (list Doc) :=
  [[donorDoc "u6" "daytime" "A+" 2; donorDoc "u7" "daytime" "B+" 2]].

Definition requested : list string := ["O+"; "O-"].

Definition providers : gmap string ProviderData :=
  {[ "provider" := {| providerGeo := Some center; name := Some "General Hospital";
                      organizationName := None; organisationName := None;
                      address := Some "1 Marina" |} ]}.

Definition request (confirmed notified : option (list string)) : RequestData :=
  {| requestBloodGroup := Some requested; unitsRequested := Some 2;
     requestedBy := Some "requester"; title := Some "Blood needed";
     matchedDonors := confirmed; foundDonors := notified |}.


(** The entry of the accepted map for a document of [donors]. *)
Definition accepted (owner group : string) (km : Q) : string * MatchedDonor :=
  (owner ++ "_daytime",
   {| donor := data (donorDoc owner "daytime" group km);
      donorToken := "token-" ++ owner; donorUid := owner |}).

(** Two documents of one user, both accepted by a search. *)
Definition twoDocsOfOneUser : DonorMap :=
  [ ("u1_daytime",
     {| donor := data (donorDoc "u1" "daytime" "O+" 1);
        donorToken := "token-u1"; donorUid := "u1" |});
    ("u1_nighttime",
     {| donor := data (donorDoc "u1" "nighttime" "O+" 2);
        donorToken := "token-u1"; donorUid := "u1" |}) ].

(** The reply of an agent that keeps the donor [u2]: a JSON array with the
    one string [u2]. *)
Definition replyKeepingU2 : string := "[" ++ dquote ++ "u2" ++ dquote ++ "]".

(** [JSON.parse] on the replies of the scenario: the array above, [null],
    and sentences in English, on which it throws. *)
Definition JSON_parse (text : string) : option JS.JSON :=
  if String.eqb text replyKeepingU2 then Some (JS.JArray [JS.JString "u2"])
  else if String.eqb text "null" then Some JS.JNull
  else None.

End Scenario.

(** ** A scenario for the callable functions *)

Module Accounts.

Definition delivers (mail : Mail) : bool := true.
Definition bounces (mail : Mail) : bool := false.

(** Thirty days of 86 400 000 ms each. *)
Definition thirtyDaysAfter (date : Z) : Z := date + 30 * 86400000.

Definition noDocumentMessage (uidOfUser : string) : string :=
  "5 NOT_FOUND: No document to update: users/" ++ uidOfUser.

Definition noAccountMessage (uidOfUser : string) : string :=
  "There is no user record corresponding to the provided identifier.".

Definition clinic : ProviderData :=
  {| providerGeo := Some Scenario.center; name := Some "Clinic of u1";
     organizationName := None; organisationName := None; address := None |}.

(** The user [u1] has two donor documents, a provider document and one
    blood request; the user [u2] has a donor document and a request; the
    account [u9] has no document in [users]. *)
Definition backend : Backend :=
  {| usersCol := Scenario.users;
     deletionMarks := ∅;
     donorsCol :=
       list_to_map
         [ ("u1_daytime", data (Scenario.donorDoc "u1" "daytime" "O+" 1));
           ("u1_nighttime", data (Scenario.donorDoc "u1" "nighttime" "O+" 2));
           ("u2_daytime", data (Scenario.donorDoc "u2" "daytime" "O-" 3)) ];
     providersCol := <["u1" := clinic]> Scenario.providers;
     bloodRequests := list_to_map [("request-a", "u1"); ("request-b", "u2")];
     authUsers := {[ "u1"; "u2"; "u9" ]};
     sentMail := [] |}.

(** A backend where the account [u1] is already gone from Firebase Auth. *)
Definition backendWithoutAccount : Backend :=
  {| usersCol := usersCol backend; deletionMarks := deletionMarks backend;
     donorsCol := donorsCol backend; providersCol := providersCol backend;
     bloodRequests := bloodRequests backend; authUsers := {[ "u2" ]};
     sentMail := [] |}.

Definition lagosQuery : AutocompleteData :=
  {| input := Some "Ikeja"; locationType := Some "neighborhood";
     regionCode := Some "NG"; cityContext := Some "Lagos" |}.

Definition prediction (place label : string) : Suggestion :=
  {| placePrediction := Some {| placeId := Some place; textOf := Some (Some label) |} |}.

(** A Places service that answers every body with two place predictions. *)
Definition places (body : AutocompleteBody) : PlacesPostResult :=
  PostResponse (Some [prediction "place-1" "Ikeja, Lagos"; prediction "place-2" "Ikeja GRA"]).

(** A Places service whose second suggestion is not a place prediction. *)
Definition placesWithQuery (body : AutocompleteBody) : PlacesPostResult :=
  PostResponse (Some [prediction "place-1" "Ikeja, Lagos"; {| placePrediction := None |}]).

(** A Places service that knows the coordinates of [place-1] only. *)
Definition placeDetails (url : string) : PlacesGetResult :=
  if String.eqb url (placeUrl "place-1")
  then GetResponse {| location := Some Scenario.center; displayNameText := None |}
  else GetResponse {| location := None; displayNameText := Some "Nowhere" |}.

End Accounts.

(** * Properties *)

(** ** The [Map] model *)

Lemma Map_has_true {V : Type} (k : string) (m : list (string * V)) :
  JS.Map_has k m = true <-> k ∈ JS.Map_keys m.
Proof.
  unfold JS.Map_has, JS.Map_keys. rewrite existsb_exists. split.
  - intros [[k' v] [Hin Heq]]. apply String.eqb_eq in Heq. simpl in Heq. subst k'.
    apply list_elem_of_In. apply (in_map fst) in Hin. exact Hin.
  - intros Hin. apply list_elem_of_In, in_map_iff in Hin.
    destruct Hin as [kv [Hk Hin]]. exists kv. split; [exact Hin|].
    apply String.eqb_eq. exact Hk.
Qed.

Lemma Map_set_fresh {V : Type} (k : string) (v : V) (m : list (string * V)) :
  JS.Map_has k m = false -> JS.Map_set k v m = (m ++ [(k, v)])%list.
Proof.
  induction m as [|[k' v'] rest IH]; simpl; [reflexivity|].
  intros H. apply orb_false_iff in H. destruct H as [Hk Hrest].
  rewrite Hk. f_equal. apply IH. exact Hrest.
Qed.


Lemma Map_set_values {V : Type} (k : string) (v : V) (m : list (string * V)) (x : V) :
  x ∈ JS.Map_values (JS.Map_set k v m) -> x = v \/ x ∈ JS.Map_values m.
Proof.
  unfold JS.Map_values. induction m as [|[k' v'] rest IH]; simpl.
  - intros H. apply list_elem_of_singleton in H. left. exact H.
  - destruct (String.eqb k' k); simpl; intros H; apply elem_of_cons in H.
    + destruct H as [H|H]; [left; exact H | right; apply elem_of_cons; right; exact H].
    + destruct H as [H|H]; [right; apply elem_of_cons; left; exact H|].
      destruct (IH H) as [Hv|Hr]; [left; exact Hv | right; apply elem_of_cons; right; exact Hr].
Qed.


(** ** The search loop *)

Section SearchFacts.
Variable distanceBetween : GeoPoint -> GeoPoint -> Q.
Variable users : gmap string UserData.
Variable snapshotsAt : Z -> list (list Doc).
Variable center : GeoPoint.
Variable requested : list string.
Variable targetDonorCount : Z.

Local Abbreviation examine_ := (examine distanceBetween users center requested).
Local Abbreviation forDocs_ := (forDocs distanceBetween users center requested targetDonorCount).
Local Abbreviation forSnapshots_ :=
  (forSnapshots distanceBetween users center requested targetDonorCount).
Local Abbreviation pass_ :=
  (pass distanceBetween users snapshotsAt center requested targetDonorCount).
Local Abbreviation advance_ := (advance targetDonorCount).
Local Abbreviation loopCond_ := (loopCond targetDonorCount).
Local Abbreviation whileLoop_ :=
  (whileLoop distanceBetween users snapshotsAt center requested targetDonorCount).
Local Abbreviation radiusSteps_ :=
  (radiusSteps distanceBetween users snapshotsAt center requested targetDonorCount).

(** A property of the accepted map survives the inner loop when it
    survives every insertion the loop can make: of a document whose id is
    not a key yet, accepted by [examine], into a map below the target. *)
Lemma forDocs_rule (P : DonorMap -> Prop) (radius : Z) (docs : list Doc) :
  (forall m doc md,
      P m -> JS.Map_size m < targetDonorCount -> JS.Map_has (id doc) m = false ->
      doc ∈ docs -> examine_ radius doc = Some md -> P (m ++ [(id doc, md)])%list) ->
  forall m, JS.Map_size m < targetDonorCount -> P m -> P (forDocs_ radius docs m).
Proof.
  induction docs as [|doc rest IH]; intros Hstep m Hlt HP; simpl; [exact HP|].
  assert (Hrest : forall m doc md,
             P m -> JS.Map_size m < targetDonorCount -> JS.Map_has (id doc) m = false ->
             doc ∈ rest -> examine_ radius doc = Some md -> P (m ++ [(id doc, md)])%list).
  { intros m0 d0 md0 H1 H2 H3 H4 H5. apply Hstep; try assumption.
    apply elem_of_cons. right. exact H4. }
  destruct (JS.Map_has (id doc) m) eqn:Hhas; [apply IH; assumption|].
  destruct (examine_ radius doc) as [md|] eqn:Hex; [|apply IH; assumption].
  rewrite (Map_set_fresh _ _ _ Hhas).
  assert (HP' : P (m ++ [(id doc, md)])%list).
  { apply Hstep; try assumption. apply elem_of_cons. left. reflexivity. }
  destruct (targetDonorCount <=? JS.Map_size (m ++ [(id doc, md)])%list) eqn:Hfull;
    [exact HP'|].
  apply IH; [exact Hrest | apply Z.leb_gt in Hfull; exact Hfull | exact HP'].
Qed.

Lemma forSnapshots_rule (P : DonorMap -> Prop) (radius : Z) (snaps : list (list Doc)) :
  (forall m doc md,
      P m -> JS.Map_size m < targetDonorCount -> JS.Map_has (id doc) m = false ->
      doc ∈ concat snaps -> examine_ radius doc = Some md -> P (m ++ [(id doc, md)])%list) ->
  forall m, JS.Map_size m < targetDonorCount -> P m -> P (forSnapshots_ radius snaps m).
Proof.
  induction snaps as [|snap rest IH]; intros Hstep m Hlt HP; simpl; [exact HP|].
  assert (HP' : P (forDocs_ radius snap m)).
  { apply forDocs_rule; try assumption.
    intros m0 d0 md0 H1 H2 H3 H4 H5. apply Hstep; try assumption.
    simpl. apply elem_of_app. left. exact H4. }
  destruct (targetDonorCount <=? JS.Map_size (forDocs_ radius snap m)) eqn:Hfull;
    [exact HP'|].
  apply IH; [| apply Z.leb_gt in Hfull; exact Hfull | exact HP'].
  intros m0 d0 md0 H1 H2 H3 H4 H5. apply Hstep; try assumption.
  simpl. apply elem_of_app. right. exact H4.
Qed.

Lemma loopCond_true (st : SearchState) :
  loopCond_ st = true ->
  currentRadiusKm st <= maxRadiusKm /\ JS.Map_size (matchingDonors st) < targetDonorCount.
Proof.
  unfold loopCond. intros H. apply andb_true_iff in H. destruct H as [H1 H2].
  apply Z.leb_le in H1. apply Z.ltb_lt in H2. split; assumption.
Qed.

Lemma advance_matchingDonors (st : SearchState) (m : DonorMap) :
  matchingDonors (advance_ st m) = m.
Proof. unfold advance. destruct (JS.Map_size m <? targetDonorCount); reflexivity. Qed.

Lemma advance_radius (st : SearchState) (m : DonorMap) :
  currentRadiusKm (advance_ st m) = currentRadiusKm st \/
  currentRadiusKm (advance_ st m) = currentRadiusKm st + stepKm.
Proof. unfold advance. destruct (JS.Map_size m <? targetDonorCount); simpl; auto. Qed.

(** An invariant [I radius map] that is kept when the radius grows by a
    step and by every insertion holds at every radius step of the loop. *)
Lemma radiusSteps_rule (I : Z -> DonorMap -> Prop) :
  (forall r m, I r m -> I (r + stepKm) m) ->
  (forall r m doc md,
      I r m -> JS.Map_size m < targetDonorCount -> JS.Map_has (id doc) m = false ->
      examine_ r doc = Some md -> I r (m ++ [(id doc, md)])%list) ->
  forall fuel st, I (currentRadiusKm st) (matchingDonors st) ->
  Forall (fun step => I (fst step) (snd step)) (radiusSteps_ fuel st).
Proof.
  intros Hgrow Hins. induction fuel as [|fuel IH]; intros st HI; simpl.
  - destruct (loopCond_ st); constructor.
  - destruct (loopCond_ st) eqn:Hc; [|constructor].
    destruct (loopCond_true _ Hc) as [_ Hlt].
    assert (Hp : I (currentRadiusKm st) (pass_ st)).
    { unfold pass. apply (forSnapshots_rule (I (currentRadiusKm st))); try assumption.
      intros m doc md H1 H2 H3 _ H5. apply Hins; assumption. }
    constructor; [exact Hp|].
    apply IH. rewrite advance_matchingDonors.
    destruct (advance_radius st (pass_ st)) as [-> | ->]; [exact Hp | apply Hgrow; exact Hp].
Qed.

(** The map a step starts from is the map the previous step ended with. *)
Lemma radiusSteps_next (fuel : nat) (st : SearchState) (i : nat)
    (r1 r2 : Z) (m1 m2 : DonorMap) :
  radiusSteps_ fuel st !! i = Some (r1, m1) ->
  radiusSteps_ fuel st !! S i = Some (r2, m2) ->
  exists st', currentRadiusKm st' = r2 /\ matchingDonors st' = m1 /\
              r2 = r1 + stepKm /\ loopCond_ st' = true /\ m2 = pass_ st'.
Proof.
  revert st i. induction fuel as [|fuel IH]; intros st i; simpl.
  - destruct (loopCond_ st); intros H; inversion H.
  - destruct (loopCond_ st) eqn:Hc; [|intros H; inversion H].
    destruct i as [|i]; simpl.
    + intros H1 H2. inversion H1; subst r1 m1. clear H1.
      destruct fuel as [|fuel]; simpl in H2.
      * destruct (loopCond_ (advance_ st (pass_ st))); inversion H2.
      * destruct (loopCond_ (advance_ st (pass_ st))) eqn:Hc'; [|inversion H2].
        simpl in H2. inversion H2; subst r2 m2. clear H2.
        exists (advance_ st (pass_ st)).
        split; [reflexivity|]. split; [apply advance_matchingDonors|].
        split; [|split; [exact Hc' | reflexivity]].
        apply loopCond_true in Hc'. destruct Hc' as [_ Hlt].
        rewrite advance_matchingDonors in Hlt.
        unfold advance. apply Z.ltb_lt in Hlt. rewrite Hlt. reflexivity.
    + apply IH.
Qed.

(** When no document of the queries is accepted the map does not change. *)
Lemma forDocs_none (radius : Z) (docs : list Doc) (m : DonorMap) :
  (forall doc, doc ∈ docs -> examine_ radius doc = None) -> forDocs_ radius docs m = m.
Proof.
  induction docs as [|doc rest IH]; intros Hnone; simpl; [reflexivity|].
  assert (Hrest : forDocs_ radius rest m = m).
  { apply IH. intros d Hd. apply Hnone. apply elem_of_cons. right. exact Hd. }
  rewrite (Hnone doc) by (apply elem_of_cons; left; reflexivity).
  destruct (JS.Map_has (id doc) m); exact Hrest.
Qed.

Lemma forSnapshots_none (radius : Z) (snaps : list (list Doc)) (m : DonorMap) :
  (forall doc, doc ∈ concat snaps -> examine_ radius doc = None) ->
  forSnapshots_ radius snaps m = m.
Proof.
  induction snaps as [|snap rest IH]; intros Hnone; simpl; [reflexivity|].
  rewrite forDocs_none.
  - rewrite IH; [destruct (targetDonorCount <=? JS.Map_size m); reflexivity|].
    intros d Hd. apply Hnone. simpl. apply elem_of_app. right. exact Hd.
  - intros d Hd. apply Hnone. simpl. apply elem_of_app. left. exact Hd.
Qed.

Lemma whileLoop_enough_fuel (fuel : nat) (st : SearchState) :
  remainingSteps st <= Z.of_nat fuel -> exists res, whileLoop_ fuel st = Some res.
Proof.
  revert st. induction fuel as [|fuel IH]; intros st Hfuel; simpl.
  - destruct (loopCond_ st) eqn:Hc; [|eexists; reflexivity].
    apply loopCond_true in Hc. destruct Hc as [Hr _]. exfalso.
    unfold remainingSteps, maxRadiusKm, stepKm in *.
    assert (0 <= (50 - currentRadiusKm st) / 2) by (apply Z.div_pos; lia). lia.
  - destruct (loopCond_ st) eqn:Hc; [|eexists; reflexivity].
    apply loopCond_true in Hc. destruct Hc as [Hr Hlt].
    unfold advance. destruct (JS.Map_size (pass_ st) <? targetDonorCount) eqn:Hp.
    + apply IH. unfold remainingSteps, maxRadiusKm, stepKm in *. simpl.
      replace (50 - (currentRadiusKm st + 2)) with ((50 - currentRadiusKm st) + (-1) * 2) by lia.
      rewrite Z.div_add by lia. lia.
    + destruct fuel; simpl; unfold loopCond; simpl; rewrite Hp, andb_false_r;
        eexists; reflexivity.
Qed.

Lemma whileLoop_more_fuel (fuel fuel' : nat) (st res : SearchState) :
  whileLoop_ fuel st = Some res -> (fuel <= fuel')%nat -> whileLoop_ fuel' st = Some res.
Proof.
  revert fuel' st. induction fuel as [|fuel IH]; intros fuel' st; simpl.
  - destruct (loopCond_ st) eqn:Hc; [intros H; inversion H|].
    intros H _. destruct fuel'; simpl; rewrite Hc; exact H.
  - destruct (loopCond_ st) eqn:Hc.
    + intros H Hle. destruct fuel' as [|fuel']; [lia|]. simpl. rewrite Hc.
      apply IH; [exact H | lia].
    + intros H _. destruct fuel'; simpl; rewrite Hc; exact H.
Qed.

Lemma radiusSteps_length (fuel : nat) (st : SearchState) :
  0 <= remainingSteps st ->
  Z.of_nat (length (radiusSteps_ fuel st)) <= remainingSteps st.
Proof.
  revert st. induction fuel as [|fuel IH]; intros st Hpos; simpl.
  - destruct (loopCond_ st); simpl; lia.
  - destruct (loopCond_ st) eqn:Hc; [|simpl; lia].
    apply loopCond_true in Hc. destruct Hc as [Hr Hlt]. simpl length.
    unfold advance. destruct (JS.Map_size (pass_ st) <? targetDonorCount) eqn:Hp.
    + match goal with |- context [radiusSteps_ fuel ?s] => specialize (IH s) end.
      unfold remainingSteps, maxRadiusKm, stepKm in *. simpl in IH.
      replace (50 - (currentRadiusKm st + 2)) with ((50 - currentRadiusKm st) + (-1) * 2)
        in IH by lia.
      rewrite Z.div_add in IH by lia.
      assert (0 <= (50 - currentRadiusKm st) / 2) by (apply Z.div_pos; lia). lia.
    + assert (Hnil : forall s, loopCond_ s = false -> radiusSteps_ fuel s = []).
      { intros s Hs. destruct fuel; simpl; rewrite Hs; reflexivity. }
      rewrite Hnil by (unfold loopCond; simpl; rewrite Hp; apply andb_false_r).
      unfold remainingSteps, maxRadiusKm, stepKm in *.
      assert (0 <= (50 - currentRadiusKm st) / 2) by (apply Z.div_pos; lia).
      simpl. lia.
Qed.

(** A property of the loop state that every iteration keeps holds of the
    state the loop returns. *)
Lemma whileLoop_rule (K : SearchState -> Prop) :
  (forall st, loopCond_ st = true -> K st -> K (advance_ st (pass_ st))) ->
  forall fuel st res, K st -> whileLoop_ fuel st = Some res -> K res /\ loopCond_ res = false.
Proof.
  intros Hkeep. induction fuel as [|fuel IH]; intros st res HK; simpl.
  - destruct (loopCond_ st) eqn:Hc; intros H; inversion H. subst res. split; assumption.
  - destruct (loopCond_ st) eqn:Hc.
    + apply IH. apply Hkeep; assumption.
    + intros H. inversion H. subst res. split; assumption.
Qed.


Lemma pass_prefix (st : SearchState) :
  loopCond_ st = true -> matchingDonors st `prefix_of` pass_ st.
Proof.
  intros Hc. destruct (loopCond_true _ Hc) as [_ Hlt]. unfold pass.
  apply (forSnapshots_rule (fun m => matchingDonors st `prefix_of` m)); [|exact Hlt|reflexivity].
  intros m doc md Hpre _ _ _ _. etransitivity; [exact Hpre|]. apply prefix_app_r. reflexivity.
Qed.

Lemma keys_app_fresh (m : DonorMap) (k : string) (md : MatchedDonor) :
  NoDup (JS.Map_keys m) -> JS.Map_has k m = false -> NoDup (JS.Map_keys (m ++ [(k, md)])%list).
Proof.
  intros Hnd Hfresh. unfold JS.Map_keys. rewrite map_app. simpl.
  apply NoDup_app. split; [exact Hnd|]. split; [|apply NoDup_singleton].
  intros x Hx Hk. apply list_elem_of_singleton in Hk. subst x.
  apply Map_has_true in Hx. congruence.
Qed.

(** What [examine] has checked of a record it returns. *)
Lemma examine_Some (radius : Z) (doc : Doc) (md : MatchedDonor) :
  examine_ radius doc = Some md ->
  donor md = data doc /\
  JS.truthy (uid (data doc)) = Some (donorUid md) /\
  (exists geopoint, geo (data doc) = Some geopoint /\
                    Qle (distanceBetween geopoint center) (inject_Z radius)) /\
  JS.includes (donorBloodGroup (data doc)) (standardizedRequestedGroups requested) = true /\
  isAvailable (data doc) = true /\
  (exists userData, users !! donorUid md = Some userData /\
                    JS.truthy (fcmToken userData) = Some (donorToken md)).
Proof.
  unfold examine. destruct (geo (data doc)) as [geopoint|]; [|discriminate].
  destruct (JS.truthy (uid (data doc))) as [u|]; [|discriminate].
  destruct (users !! u) as [userData|] eqn:Hu; [|discriminate].
  destruct (Qle_bool (distanceBetween geopoint center) (inject_Z radius)) eqn:Hd;
    [|discriminate].
  destruct (JS.includes (donorBloodGroup (data doc)) (standardizedRequestedGroups requested))
    eqn:Hg; [|discriminate].
  destruct (isAvailable (data doc)) eqn:Ha; [|discriminate]. simpl.
  destruct (JS.truthy (fcmToken userData)) as [token|] eqn:Ht; [|discriminate].
  intros H. inversion H. subst md. simpl.
  repeat split; try reflexivity.
  - exists geopoint. split; [reflexivity|]. apply Qle_bool_iff. exact Hd.
  - exists userData. split; assumption.
Qed.

(** The map the loop returns is the accepted map of its last radius step,
    or the map it started from when it makes no step. *)
Lemma result_is_last_step (fuel : nat) (st res : SearchState) :
  whileLoop_ fuel st = Some res ->
  matchingDonors res = default (matchingDonors st) (snd <$> last (radiusSteps_ fuel st)).
Proof.
  revert st. induction fuel as [|fuel IH]; intros st; simpl.
  - destruct (loopCond_ st); [discriminate|]. intros H. inversion H. reflexivity.
  - destruct (loopCond_ st); [|intros H; inversion H; reflexivity].
    intros H. rewrite (IH _ H), advance_matchingDonors, last_cons.
    destruct (last (radiusSteps_ fuel (advance_ st (pass_ st)))); reflexivity.
Qed.

(** C3. At every radius step of the search, whatever the range queries
    return, each record of the accepted map has a geopoint whose distance to
    the search center is at most the radius being examined. *)
Theorem accepted_within_examined_radius (fuel i j : nat) (r : Z) (m : DonorMap)
    (k : string) (md : MatchedDonor) :
  radiusSteps_ fuel initialState !! i = Some (r, m) ->
  m !! j = Some (k, md) ->
  exists geopoint,
    geo (donor md) = Some geopoint /\ Qle (distanceBetween geopoint center) (inject_Z r).
Proof.
  intros Hstep Hentry.
  pose (I := fun (radius : Z) (acc : DonorMap) =>
               forall entry, entry ∈ acc ->
                 exists geopoint, geo (donor (snd entry)) = Some geopoint /\
                   Qle (distanceBetween geopoint center) (inject_Z radius)).
  assert (Hall : Forall (fun step => I (fst step) (snd step))
                   (radiusSteps_ fuel initialState)).
  { apply radiusSteps_rule.
    - intros r0 m0 HI entry Hin. destruct (HI entry Hin) as [g [Hg Hd]].
      exists g. split; [exact Hg|]. eapply Qle_trans; [exact Hd|].
      rewrite <- Zle_Qle. unfold stepKm. lia.
    - intros r0 m0 doc md0 HI _ _ Hex entry Hin. apply elem_of_app in Hin.
      destruct Hin as [Hin|Hin]; [apply HI; exact Hin|].
      apply list_elem_of_singleton in Hin. subst entry. simpl.
      destruct (examine_Some _ _ _ Hex) as [Hdon [_ [[g [Hg Hd]] _]]].
      exists g. rewrite Hdon. split; assumption.
    - intros entry Hin. simpl in Hin. inversion Hin. }
  rewrite Forall_forall in Hall.
  specialize (Hall (r, m) (list_elem_of_lookup_2 _ _ _ Hstep) (k, md)
                (list_elem_of_lookup_2 _ _ _ Hentry)).
  exact Hall.
Qed.

(** C4. Of two consecutive radius steps, the second examines the next
    radius, its accepted map starts with the whole accepted map of the first
    (so every entry of the first is an entry of the second), and no document
    id is a key twice. *)
Theorem accepted_set_grows (fuel i : nat) (r1 r2 : Z) (m1 m2 : DonorMap) :
  radiusSteps_ fuel initialState !! i = Some (r1, m1) ->
  radiusSteps_ fuel initialState !! S i = Some (r2, m2) ->
  r2 = r1 + stepKm /\
  m1 `prefix_of` m2 /\
  (forall entry, entry ∈ m1 -> entry ∈ m2) /\
  NoDup (JS.Map_keys m1) /\ NoDup (JS.Map_keys m2).
Proof.
  intros H1 H2.
  destruct (radiusSteps_next _ _ _ _ _ _ _ H1 H2)
    as [st' [Hr [Hm [Hr2 [Hc Hp]]]]].
  assert (Hpre : m1 `prefix_of` m2).
  { subst m2. rewrite <- Hm. apply pass_prefix. exact Hc. }
  assert (Hall : Forall (fun step => NoDup (JS.Map_keys (snd step)))
                   (radiusSteps_ fuel initialState)).
  { apply (radiusSteps_rule (fun _ acc => NoDup (JS.Map_keys acc))).
    - intros _ m0 H. exact H.
    - intros _ m0 doc md H _ Hfresh _. apply keys_app_fresh; assumption.
    - simpl. apply NoDup_nil_2. }
  rewrite Forall_forall in Hall.
  split; [exact Hr2|]. split; [exact Hpre|]. split.
  - intros entry Hin. destruct Hpre as [added ->]. apply elem_of_app. left. exact Hin.
  - split.
    + apply (Hall (r1, m1)). eapply list_elem_of_lookup_2. exact H1.
    + apply (Hall (r2, m2)). eapply list_elem_of_lookup_2. exact H2.
Qed.

(** C6. A donor whose standardized (trimmed, uppercased) blood group is not
    in the standardized requested groups is the donor of no record of the
    accepted map, at any radius step. *)
Theorem unrequested_group_never_accepted (d : Donor) (fuel i j : nat) (r : Z)
    (m : DonorMap) (k : string) (md : MatchedDonor) :
  JS.includes (donorBloodGroup d) (standardizedRequestedGroups requested) = false ->
  radiusSteps_ fuel initialState !! i = Some (r, m) ->
  m !! j = Some (k, md) ->
  donor md <> d.
Proof.
  intros Hnot Hstep Hentry.
  pose (I := fun (_ : Z) (acc : DonorMap) =>
               forall entry, entry ∈ acc ->
                 JS.includes (donorBloodGroup (donor (snd entry)))
                   (standardizedRequestedGroups requested) = true).
  assert (Hall : Forall (fun step => I (fst step) (snd step))
                   (radiusSteps_ fuel initialState)).
  { apply radiusSteps_rule.
    - intros r0 m0 H. exact H.
    - intros r0 m0 doc md0 HI _ _ Hex entry Hin. apply elem_of_app in Hin.
      destruct Hin as [Hin|Hin]; [apply HI; exact Hin|].
      apply list_elem_of_singleton in Hin. subst entry. simpl.
      destruct (examine_Some _ _ _ Hex) as [Hdon [_ [_ [Hg _]]]].
      rewrite Hdon. exact Hg.
    - intros entry Hin. simpl in Hin. inversion Hin. }
  rewrite Forall_forall in Hall.
  specialize (Hall (r, m) (list_elem_of_lookup_2 _ _ _ Hstep) (k, md)
                (list_elem_of_lookup_2 _ _ _ Hentry)).
  simpl in Hall. intros Heq. rewrite Heq in Hall. congruence.
Qed.



(** The flag is set as soon as the radius has passed the ceiling. *)
Lemma result_flag (fuel : nat) (res : SearchState) :
  whileLoop_ fuel initialState = Some res ->
  JS.Map_size (matchingDonors res) < targetDonorCount ->
  expandedToMax res = true /\ maxRadiusKm < currentRadiusKm res.
Proof.
  intros Hres Hlt.
  apply (whileLoop_rule
           (fun st => maxRadiusKm < currentRadiusKm st -> expandedToMax st = true))
    in Hres.
  - destruct Hres as [HK Hexit]. unfold loopCond in Hexit.
    apply andb_false_iff in Hexit. destruct Hexit as [Hr|Hs].
    + apply Z.leb_gt in Hr. split; [apply HK; exact Hr | exact Hr].
    + apply Z.ltb_ge in Hs. lia.
  - intros st Hc HK. unfold advance.
    destruct (JS.Map_size (pass_ st) <? targetDonorCount); simpl; [|exact HK].
    intros Hover. apply Z.ltb_lt in Hover. rewrite Hover. reflexivity.
  - simpl. unfold maxRadiusKm, startRadiusKm. lia.
Qed.

(** With no acceptable document at any radius up to the ceiling, the
    accepted map stays empty. *)
Lemma result_empty (fuel : nat) (res : SearchState) :
  (forall r doc, startRadiusKm <= r <= maxRadiusKm ->
                 doc ∈ concat (snapshotsAt r) -> examine_ r doc = None) ->
  whileLoop_ fuel initialState = Some res ->
  matchingDonors res = [].
Proof.
  intros Hnone Hres.
  apply (whileLoop_rule
           (fun st => matchingDonors st = [] /\ startRadiusKm <= currentRadiusKm st))
    in Hres.
  - tauto.
  - intros st Hc [Hm Hr]. destruct (loopCond_true _ Hc) as [Hmax _].
    rewrite advance_matchingDonors. split.
    + unfold pass. rewrite forSnapshots_none; [exact Hm|].
      intros doc Hdoc. apply Hnone; [lia | exact Hdoc].
    + destruct (advance_radius st (pass_ st)) as [-> | ->]; unfold stepKm; lia.
  - simpl. split; [reflexivity | lia].
Qed.

End SearchFacts.

Example scenario_steps :
  radiusSteps Scenario.meridianDistance Scenario.users Scenario.snapshotsAt Scenario.center
    Scenario.requested 3 25 initialState
  = [ (2, [Scenario.accepted "u1" " o+ " (3 # 2)]);
      (4, [Scenario.accepted "u1" " o+ " (3 # 2); Scenario.accepted "u2" "O-" 3]);
      (6, [Scenario.accepted "u1" " o+ " (3 # 2); Scenario.accepted "u2" "O-" 3;
           Scenario.accepted "u3" "o+" (9 # 2)]) ].
Proof. vm_compute. reflexivity. Qed.

Example scenario_exhausted_steps :
  length (radiusSteps Scenario.meridianDistance Scenario.users Scenario.otherGroupsAt
            Scenario.center Scenario.requested 3 100 initialState) = iterationBound.
Proof. vm_compute. reflexivity. Qed.

Example scenario_result :
  findMatchingDonors Scenario.meridianDistance Scenario.users Scenario.snapshotsAt
    Scenario.center Scenario.requested 3
  = Some {| matchingDonors :=
              [Scenario.accepted "u1" " o+ " (3 # 2); Scenario.accepted "u2" "O-" 3;
               Scenario.accepted "u3" "o+" (9 # 2)];
            expandedToMax := false; currentRadiusKm := 6 |}.
Proof. vm_compute. reflexivity. Qed.

Lemma accepted_within_examined_radius_witness :
  exists geopoint,
    geo (donor (snd (Scenario.accepted "u2" "O-" 3))) = Some geopoint /\
    Qle (Scenario.meridianDistance geopoint Scenario.center) (inject_Z 4).
Proof.
  apply (accepted_within_examined_radius Scenario.meridianDistance Scenario.users
           Scenario.snapshotsAt Scenario.center Scenario.requested 3 25 1 1 4
           [Scenario.accepted "u1" " o+ " (3 # 2); Scenario.accepted "u2" "O-" 3]
           "u2_daytime" (snd (Scenario.accepted "u2" "O-" 3)));
    vm_compute; reflexivity.
Defined.

Lemma accepted_set_grows_witness :
  6 = 4 + stepKm /\
  [Scenario.accepted "u1" " o+ " (3 # 2); Scenario.accepted "u2" "O-" 3]
    `prefix_of` [Scenario.accepted "u1" " o+ " (3 # 2); Scenario.accepted "u2" "O-" 3;
                 Scenario.accepted "u3" "o+" (9 # 2)] /\
  (forall entry,
      entry ∈ [Scenario.accepted "u1" " o+ " (3 # 2); Scenario.accepted "u2" "O-" 3] ->
      entry ∈ [Scenario.accepted "u1" " o+ " (3 # 2); Scenario.accepted "u2" "O-" 3;
               Scenario.accepted "u3" "o+" (9 # 2)]) /\
  NoDup (JS.Map_keys [Scenario.accepted "u1" " o+ " (3 # 2); Scenario.accepted "u2" "O-" 3]) /\
  NoDup (JS.Map_keys [Scenario.accepted "u1" " o+ " (3 # 2); Scenario.accepted "u2" "O-" 3;
                      Scenario.accepted "u3" "o+" (9 # 2)]).
Proof.
  apply (accepted_set_grows Scenario.meridianDistance Scenario.users Scenario.snapshotsAt
           Scenario.center Scenario.requested 3 25 1);
    vm_compute; reflexivity.
Defined.

Lemma unrequested_group_never_accepted_witness :
  donor (snd (Scenario.accepted "u2" "O-" 3))
  <> data (Scenario.donorDoc "u6" "daytime" "A+" 2).
Proof.
  apply (unrequested_group_never_accepted Scenario.meridianDistance Scenario.users
           Scenario.snapshotsAt Scenario.center Scenario.requested 3
           (data (Scenario.donorDoc "u6" "daytime" "A+" 2)) 25 1 1 4
           [Scenario.accepted "u1" " o+ " (3 # 2); Scenario.accepted "u2" "O-" 3]
           "u2_daytime" (snd (Scenario.accepted "u2" "O-" 3)));
    vm_compute; reflexivity.
Defined.

Lemma targetOf_bounds (unitsNeeded : Z) : 3 <= targetOf unitsNeeded <= 5.
Proof. unfold targetOf. lia. Qed.

Lemma iterationBound_value : iterationBound = maxIterations.
Proof. reflexivity. Qed.

(** C5. For the target of any request, the loop makes at most
    ceil((50 - 2) / 2) + 1 = 25 iterations and returns; a result with fewer
    donors than the target has the exhausted flag set; and when no document
    returned for a radius from 2 to 50 is acceptable, the result is the empty
    map with the flag set. *)
Theorem search_terminates_within_bound
    (distanceBetween : GeoPoint -> GeoPoint -> Q) (users : gmap string UserData)
    (snapshotsAt : Z -> list (list Doc)) (center : GeoPoint) (requested : list string)
    (requestData : RequestData) :
  let target := targetOf (unitsNeededOf requestData) in
  (forall fuel,
      (length (radiusSteps distanceBetween users snapshotsAt center requested target
                 fuel initialState) <= iterationBound)%nat) /\
  exists res,
    findMatchingDonors distanceBetween users snapshotsAt center requested target = Some res /\
    (forall fuel, (iterationBound <= fuel)%nat ->
                  whileLoop distanceBetween users snapshotsAt center requested target
                    fuel initialState = Some res) /\
    (JS.Map_size (matchingDonors res) < target -> expandedToMax res = true) /\
    ((forall r doc, startRadiusKm <= r <= maxRadiusKm ->
                    doc ∈ concat (snapshotsAt r) ->
                    examine distanceBetween users center requested r doc = None) ->
     matchingDonors res = [] /\ expandedToMax res = true).
Proof.
  intros target.
  pose proof (targetOf_bounds (unitsNeededOf requestData)) as Htarget. fold target in Htarget.
  split.
  - intros fuel.
    pose proof (radiusSteps_length distanceBetween users snapshotsAt center requested target
                  fuel initialState) as Hlen.
    assert (Hrem : remainingSteps initialState = 25) by reflexivity.
    rewrite Hrem in Hlen. change iterationBound with 25%nat. lia.
  - destruct (whileLoop_enough_fuel distanceBetween users snapshotsAt center requested target
                maxIterations initialState) as [res Hres].
    { vm_compute. discriminate. }
    exists res. split; [exact Hres|]. split; [|split].
    + intros fuel Hfuel. eapply whileLoop_more_fuel; [exact Hres | exact Hfuel].
    + intros Hlt. eapply result_flag; [exact Hres | exact Hlt].
    + intros Hnone.
      assert (Hempty : matchingDonors res = []).
      { eapply result_empty; [exact Hnone | exact Hres]. }
      split; [exact Hempty|].
      eapply result_flag; [exact Hres|]. rewrite Hempty. unfold JS.Map_size. simpl. lia.
Qed.

Lemma search_terminates_within_bound_witness :
  exists res,
    findMatchingDonors Scenario.meridianDistance Scenario.users Scenario.otherGroupsAt
      Scenario.center Scenario.requested 3 = Some res /\
    matchingDonors res = [] /\ expandedToMax res = true.
Proof.
  destruct (search_terminates_within_bound Scenario.meridianDistance Scenario.users
              Scenario.otherGroupsAt Scenario.center Scenario.requested
              (Scenario.request None None)) as [_ [res [Hres [_ [_ Hnone]]]]].
  exists res. split; [exact Hres|]. apply Hnone.
  intros r doc _ Hdoc. simpl in Hdoc.
  apply elem_of_cons in Hdoc. destruct Hdoc as [-> | Hdoc].
  - unfold examine. simpl. rewrite andb_false_r. reflexivity.
  - apply list_elem_of_singleton in Hdoc. subst doc.
    unfold examine. simpl. rewrite andb_false_r. reflexivity.
Defined.

(** ** The relevance filter *)

Lemma Map_set_keys {V : Type} (k : string) (v : V) (m : list (string * V)) (k' : string) :
  k' ∈ JS.Map_keys (JS.Map_set k v m) <-> k' = k \/ k' ∈ JS.Map_keys m.
Proof.
  unfold JS.Map_keys. induction m as [|[k0 v0] rest IH]; simpl.
  - rewrite list_elem_of_singleton. rewrite elem_of_nil. tauto.
  - destruct (String.eqb k0 k) eqn:Hk; simpl; rewrite !elem_of_cons.
    + apply String.eqb_eq in Hk. subst k0. tauto.
    + rewrite IH. tauto.
Qed.

Section FilterFacts.
Variable JSON_parse : string -> option JS.JSON.

(** The loop of lines 516-520, from any accumulator. *)
Local Abbreviation keepInto ids :=
  (fold_left
     (fun (acc : DonorMap) (d : MatchedDonor) =>
        if JS.includesString (donorUid d) ids then JS.Map_set (donorUid d) d acc else acc)).

Lemma keepInto_values (ids : list JS.JSON) (l : list MatchedDonor) (acc : DonorMap)
    (md : MatchedDonor) :
  md ∈ JS.Map_values (keepInto ids l acc) -> md ∈ JS.Map_values acc \/ md ∈ l.
Proof.
  revert acc. induction l as [|d rest IH]; intros acc; simpl; [tauto|].
  intros H. apply IH in H. rewrite elem_of_cons. destruct H as [H|H]; [|tauto].
  destruct (JS.includesString (donorUid d) ids); [|tauto].
  apply Map_set_values in H. tauto.
Qed.


(** Every record of the filtered map is a record of the map before. *)
Lemma filterDonors_values (m : DonorMap) (response : AxiosResult) (md : MatchedDonor) :
  md ∈ JS.Map_values (filterDonors JSON_parse m response) -> md ∈ JS.Map_values m.
Proof.
  unfold filterDonors. destruct response as [|status reply]; [tauto|].
  destruct (JS.truthy reply) as [text|]; [|tauto].
  destruct (status =? 200); [|tauto].
  assert (Hkeep : forall ids, md ∈ JS.Map_values (keepListed ids m) -> md ∈ JS.Map_values m).
  { intros ids H. apply keepInto_values in H. destruct H as [H|H]; [|exact H].
    simpl in H. inversion H. }
  destruct (JSON_parse text) as [[| | | |ids|]|]; try tauto; apply Hkeep.
Qed.


Lemma includesString_own (d : MatchedDonor) (l : list MatchedDonor) :
  d ∈ l -> JS.includesString (donorUid d) (map JS.JString (map donorUid l)) = true.
Proof.
  intros Hin. unfold JS.includesString. apply existsb_exists.
  exists (JS.JString (donorUid d)). split; [|apply String.eqb_refl].
  apply in_map, in_map. apply list_elem_of_In. exact Hin.
Qed.

(** With every uid listed, the loop keys the records by uid: the keys are
    the uids seen so far. *)
Lemma keepInto_all_keys (ids : list JS.JSON) (l : list MatchedDonor) (acc : DonorMap)
    (u : string) :
  (forall d, d ∈ l -> JS.includesString (donorUid d) ids = true) ->
  u ∈ JS.Map_keys (keepInto ids l acc) <-> u ∈ JS.Map_keys acc \/ u ∈ map donorUid l.
Proof.
  revert acc. induction l as [|d rest IH]; intros acc Hall; simpl.
  - rewrite elem_of_nil. tauto.
  - rewrite IH by (intros d' Hd'; apply Hall; apply elem_of_cons; right; exact Hd').
    rewrite (Hall d) by (apply elem_of_cons; left; reflexivity).
    rewrite Map_set_keys, elem_of_cons. tauto.
Qed.

(** Each entry of the filtered map is keyed by the uid of its record. *)
Lemma keepInto_keyed (ids : list JS.JSON) (l : list MatchedDonor) (acc : DonorMap) :
  Forall (fun entry => fst entry = donorUid (snd entry)) acc ->
  Forall (fun entry => fst entry = donorUid (snd entry)) (keepInto ids l acc).
Proof.
  revert acc. induction l as [|d rest IH]; intros acc Hacc; simpl; [exact Hacc|].
  apply IH. destruct (JS.includesString (donorUid d) ids); [|exact Hacc].
  clear IH. induction acc as [|[k v] acc IHacc]; simpl.
  - constructor; [reflexivity | constructor].
  - inversion Hacc as [|? ? Hhead Htail]; subst. simpl in Hhead.
    destruct (String.eqb k (donorUid d)) eqn:Hk.
    + apply String.eqb_eq in Hk. constructor; [exact Hk | exact Htail].
    + constructor; [exact Hhead | apply IHacc; exact Htail].
Qed.

Lemma keyed_keys (m : DonorMap) :
  Forall (fun entry => fst entry = donorUid (snd entry)) m ->
  JS.Map_keys m = donorIdsOf m.
Proof.
  unfold JS.Map_keys, donorIdsOf, JS.Map_values. rewrite map_map.
  induction 1 as [|entry rest Hhead _ IH]; simpl; [reflexivity|].
  rewrite Hhead, IH. reflexivity.
Qed.

(** With every uid listed and no uid shared, the loop appends each record. *)
Lemma keepInto_all_distinct (ids : list JS.JSON) (l : list MatchedDonor) (acc : DonorMap) :
  (forall d, d ∈ l -> JS.includesString (donorUid d) ids = true) ->
  NoDup (map donorUid l) ->
  (forall u, u ∈ JS.Map_keys acc -> u ∉ map donorUid l) ->
  keepInto ids l acc = (acc ++ map (fun d => (donorUid d, d)) l)%list.
Proof.
  revert acc. induction l as [|d rest IH]; intros acc Hall Hnd Hdisj; simpl.
  - rewrite app_nil_r. reflexivity.
  - rewrite (Hall d) by (apply elem_of_cons; left; reflexivity).
    simpl in Hnd. apply NoDup_cons in Hnd. destruct Hnd as [Hfresh Hnd].
    rewrite Map_set_fresh.
    + rewrite IH.
      * rewrite <- app_assoc. reflexivity.
      * intros d' Hd'. apply Hall. apply elem_of_cons. right. exact Hd'.
      * exact Hnd.
      * intros u Hu. unfold JS.Map_keys in Hu. rewrite map_app in Hu. simpl in Hu.
        apply elem_of_app in Hu. destruct Hu as [Hu|Hu].
        -- intros Hin. apply (Hdisj u Hu). simpl. apply elem_of_cons. right. exact Hin.
        -- apply list_elem_of_singleton in Hu. subst u. exact Hfresh.
    + destruct (JS.Map_has (donorUid d) acc) eqn:Hhas; [|reflexivity].
      apply Map_has_true in Hhas. exfalso. apply (Hdisj _ Hhas).
      simpl. apply elem_of_cons. left. reflexivity.
Qed.

(** C2, as the code has it. When the call is rejected, the response is not
    a 200 with a non-empty reply, or the reply parses to something that is
    not an array, the filtered map is the map of the search, unchanged. When
    the reply does not parse, the map is rebuilt keyed by uid: it has the uids
    of the map of the search, and the same records in the same order when no
    two records share a uid. In every case, also when a list is parsed, each
    record of the filtered map is a record of the map of the search. *)
Theorem filter_fails_open (m : DonorMap) (response : AxiosResult) :
  let filtered := filterDonors JSON_parse m response in
  (outcomeOf JSON_parse response = callFails \/
   outcomeOf JSON_parse response = invalidResponse \/
   outcomeOf JSON_parse response = parsedNotAList -> filtered = m) /\
  (outcomeOf JSON_parse response = replyNotParseable ->
   (forall u, u ∈ donorIdsOf filtered <-> u ∈ donorIdsOf m) /\
   JS.Map_keys filtered = donorIdsOf filtered /\
   (NoDup (donorIdsOf m) -> JS.Map_values filtered = JS.Map_values m)) /\
  (forall md, md ∈ JS.Map_values filtered -> md ∈ JS.Map_values m).
Proof.
  intros filtered. split; [|split].
  - subst filtered. unfold outcomeOf, filterDonors.
    destruct response as [|status reply]; [reflexivity|].
    destruct (JS.truthy reply) as [text|]; [|reflexivity].
    destruct (status =? 200); [|reflexivity].
    destruct (JSON_parse text) as [[| | | |ids|]|]; try reflexivity;
      intros [H|[H|H]]; discriminate.
  - intros Hout.
    assert (Hf : filtered = keepListed (map JS.JString (donorIdsOf m)) m).
    { subst filtered. revert Hout. unfold outcomeOf, filterDonors.
      destruct response as [|status reply]; [discriminate|].
      destruct (JS.truthy reply) as [text|]; [|discriminate].
      destruct (status =? 200); [|discriminate].
      destruct (JSON_parse text) as [[| | | |ids|]|]; try discriminate. reflexivity. }
    assert (Hall : forall d, d ∈ JS.Map_values m ->
              JS.includesString (donorUid d) (map JS.JString (donorIdsOf m)) = true).
    { intros d Hd. apply includesString_own. exact Hd. }
    assert (Hkeyed : JS.Map_keys filtered = donorIdsOf filtered).
    { apply keyed_keys. rewrite Hf. apply keepInto_keyed. constructor. }
    split; [|split; [exact Hkeyed|]].
    + intros u. rewrite <- Hkeyed, Hf. unfold keepListed.
      rewrite keepInto_all_keys by exact Hall. simpl. rewrite elem_of_nil.
      unfold donorIdsOf. tauto.
    + intros Hnd. rewrite Hf. unfold keepListed.
      rewrite keepInto_all_distinct; [| exact Hall | exact Hnd |].
      * simpl. unfold JS.Map_values at 1. rewrite map_map. simpl. apply map_id.
      * intros u Hu. simpl in Hu. inversion Hu.
  - intros md. apply filterDonors_values.
Qed.

End FilterFacts.

Lemma filter_fails_open_witness :
  filterDonors Scenario.JSON_parse
    [Scenario.accepted "u1" "O+" 1; Scenario.accepted "u2" "O-" 3] (AxiosResponse 503 None)
  = [Scenario.accepted "u1" "O+" 1; Scenario.accepted "u2" "O-" 3] /\
  JS.Map_values
    (filterDonors Scenario.JSON_parse
       [Scenario.accepted "u1" "O+" 1; Scenario.accepted "u2" "O-" 3]
       (AxiosResponse 200 (Some "I would keep u2.")))
  = JS.Map_values [Scenario.accepted "u1" "O+" 1; Scenario.accepted "u2" "O-" 3] /\
  snd (Scenario.accepted "u2" "O-" 3)
    ∈ JS.Map_values [Scenario.accepted "u1" "O+" 1; Scenario.accepted "u2" "O-" 3].
Proof.
  split; [|split].
  - apply (filter_fails_open Scenario.JSON_parse
             [Scenario.accepted "u1" "O+" 1; Scenario.accepted "u2" "O-" 3]
             (AxiosResponse 503 None)).
    right. left. reflexivity.
  - apply (filter_fails_open Scenario.JSON_parse
             [Scenario.accepted "u1" "O+" 1; Scenario.accepted "u2" "O-" 3]
             (AxiosResponse 200 (Some "I would keep u2."))); [reflexivity|].
    vm_compute. repeat constructor; intros H; inversion H; subst;
      match goal with H' : _ ∈ _ |- _ => inversion H' end.
  - apply (filter_fails_open Scenario.JSON_parse
             [Scenario.accepted "u1" "O+" 1; Scenario.accepted "u2" "O-" 3]
             (AxiosResponse 200 (Some Scenario.replyKeepingU2))).
    vm_compute. constructor.
Defined.

Example scenario_filter_keeps_listed :
  JS.Map_keys
    (filterDonors Scenario.JSON_parse
       [Scenario.accepted "u1" "O+" 1; Scenario.accepted "u2" "O-" 3]
       (AxiosResponse 200 (Some Scenario.replyKeepingU2)))
  = ["u2"].
Proof. vm_compute. reflexivity. Qed.

Example scenario_filter_not_a_list :
  filterDonors Scenario.JSON_parse
    [Scenario.accepted "u1" "O+" 1; Scenario.accepted "u2" "O-" 3]
    (AxiosResponse 200 (Some "null"))
  = [Scenario.accepted "u1" "O+" 1; Scenario.accepted "u2" "O-" 3].
Proof. vm_compute. reflexivity. Qed.

(** C2 as stated fails: a reply that does not parse makes the handler
    rebuild the map keyed by uid, so two accepted documents of one user
    become one entry under another key. *)
Lemma filter_unparseable_reply_rekeys :
  let filtered :=
    filterDonors Scenario.JSON_parse Scenario.twoDocsOfOneUser
      (AxiosResponse 200 (Some "I would keep both.")) in
  outcomeOf Scenario.JSON_parse (AxiosResponse 200 (Some "I would keep both."))
    = replyNotParseable /\
  JS.Map_keys Scenario.twoDocsOfOneUser = ["u1_daytime"; "u1_nighttime"] /\
  JS.Map_keys filtered = ["u1"] /\
  filtered <> Scenario.twoDocsOfOneUser.
Proof.
  vm_compute. repeat split; discriminate.
Qed.

(** ** The target count *)


Example scenario_overfetch_stops_at_target :
  option_map (fun res => JS.Map_keys (matchingDonors res))
    (findMatchingDonors (fun _ _ => 1%Q) Scenario.users Scenario.snapshotsAt Scenario.center
       ["O+"; "O-"; "A+"; "B+"] 3)
  = Some ["u5_daytime"; "u6_daytime"; "u1_daytime"].
Proof. vm_compute. reflexivity. Qed.

(** ** The creation pass *)

Lemma messageContent_throws :
  firstUnbound scopeAtMessageContent messageContentReads = Some "after".
Proof. vm_compute. reflexivity. Qed.

Section CreatedFacts.
Variable distanceBetween : GeoPoint -> GeoPoint -> Q.
Variable JSON_parse : string -> option JS.JSON.
Variable providers : gmap string ProviderData.
Variable users : gmap string UserData.
Variable snapshotsAt : Z -> list (list Doc).
Variable filterResponse : AxiosResult.

(** C1 fails on the code. Whenever candidates survive the search and the
    filter, building the message content reads the identifier [after],
    which has no binding in this handler; the error is caught by the
    handler, which returns with no message written, no push sent and the
    request not updated. *)
Theorem created_pass_aborts_before_writes (providerId requestId : string)
    (requestData : RequestData) (m : DonorMap) :
  survivors distanceBetween JSON_parse providers users snapshotsAt filterResponse
    providerId requestData = Some m ->
  m <> [] ->
  onBloodRequestCreated distanceBetween JSON_parse providers users snapshotsAt filterResponse
    providerId requestId requestData
  = (Caught (JS.ReferenceError "after"), []).
Proof.
  unfold survivors, onBloodRequestCreated.
  destruct (providers !! providerId) as [providerData|]; [|discriminate].
  destruct (providerGeo providerData) as [center|]; [|discriminate].
  destruct (findMatchingDonors distanceBetween users snapshotsAt center
              (default [] (requestBloodGroup requestData))
              (targetOf (unitsNeededOf requestData))) as [found|]; [|discriminate].
  destruct (JS.Map_size (matchingDonors found) =? 0); [discriminate|].
  intros Hm Hne. inversion Hm as [Hm']. rewrite Hm'.
  destruct (JS.Map_size m =? 0) eqn:Hsize.
  - apply Z.eqb_eq in Hsize. unfold JS.Map_size in Hsize.
    destruct m; [congruence | simpl in Hsize; lia].
  - unfold notifyAndRecord. rewrite messageContent_throws. reflexivity.
Qed.

(** The notified-donor list is never written, and no message record. *)
Lemma created_pass_only_tells_requester (providerId requestId : string)
    (requestData : RequestData) :
  let result :=
    onBloodRequestCreated distanceBetween JSON_parse providers users snapshotsAt
      filterResponse providerId requestId requestData in
  snd result = [] \/ snd result = sendNoDonorNotification users requestId requestData.
Proof.
  unfold onBloodRequestCreated.
  destruct (providers !! providerId) as [providerData|]; [|left; reflexivity].
  destruct (providerGeo providerData) as [center|]; [|left; reflexivity].
  destruct (findMatchingDonors _ _ _ _ _ _) as [found|]; [|left; reflexivity].
  destruct (JS.Map_size (matchingDonors found) =? 0).
  - simpl. destruct (expandedToMax found || (50 <? currentRadiusKm found)); auto.
  - destruct (JS.Map_size (filterDonors _ _ _) =? 0); [right; reflexivity|].
    unfold notifyAndRecord. rewrite messageContent_throws. left. reflexivity.
Qed.

End CreatedFacts.

Lemma created_pass_aborts_before_writes_witness :
  survivors Scenario.meridianDistance Scenario.JSON_parse Scenario.providers Scenario.users
    Scenario.snapshotsAt AxiosRejects "provider" (Scenario.request None None)
  = Some [Scenario.accepted "u1" " o+ " (3 # 2); Scenario.accepted "u2" "O-" 3;
          Scenario.accepted "u3" "o+" (9 # 2)] /\
  onBloodRequestCreated Scenario.meridianDistance Scenario.JSON_parse Scenario.providers
    Scenario.users Scenario.snapshotsAt AxiosRejects "provider" "request-1"
    (Scenario.request None None)
  = (Caught (JS.ReferenceError "after"), []).
Proof.
  split; [vm_compute; reflexivity|].
  apply (created_pass_aborts_before_writes Scenario.meridianDistance Scenario.JSON_parse
           Scenario.providers Scenario.users Scenario.snapshotsAt AxiosRejects
           "provider" "request-1" (Scenario.request None None)
           [Scenario.accepted "u1" " o+ " (3 # 2); Scenario.accepted "u2" "O-" 3;
            Scenario.accepted "u3" "o+" (9 # 2)]);
    [vm_compute; reflexivity | discriminate].
Defined.

(** ** The confirmation pass *)

Lemma newDonorsOf_nil (beforeList afterList : list string) :
  (forall u, u ∈ afterList -> u ∈ beforeList) -> newDonorsOf beforeList afterList = [].
Proof.
  intros Hsub. unfold newDonorsOf. induction afterList as [|u rest IH]; simpl; [reflexivity|].
  assert (Hu : JS.includes u beforeList = true).
  { unfold JS.includes. apply existsb_exists. exists u. split; [|apply String.eqb_refl].
    apply list_elem_of_In. apply Hsub. apply elem_of_cons. left. reflexivity. }
  rewrite Hu. simpl. apply IH. intros v Hv. apply Hsub. apply elem_of_cons. right. exact Hv.
Qed.

(** C7. An update whose confirmed-donor list has no id that the list before
    the update lacks makes the confirmation pass do nothing: no write and no
    send. *)
Theorem confirmation_replay_is_inert (providers : gmap string ProviderData)
    (users : gmap string UserData) (hourAt : nat -> Z) (providerId requestId : string)
    (before after : RequestData) :
  (forall u, u ∈ confirmedDonors after -> u ∈ confirmedDonors before) ->
  onMatchedDonorAdded providers users hourAt providerId requestId before after = [].
Proof.
  intros Hsub. unfold onMatchedDonorAdded, confirmedDonors in *.
  destruct (matchedDonors before) as [beforeList|]; [|reflexivity].
  destruct (matchedDonors after) as [afterList|]; [|reflexivity].
  simpl in Hsub. rewrite (newDonorsOf_nil _ _ Hsub). reflexivity.
Qed.

Lemma confirmation_replay_is_inert_witness :
  onMatchedDonorAdded Scenario.providers Scenario.users (fun _ => 9) "provider" "request-1"
    (Scenario.request (Some ["u1"; "u2"]) None) (Scenario.request (Some ["u2"; "u1"]) None)
  = [].
Proof.
  apply confirmation_replay_is_inert. simpl.
  intros u Hu. apply elem_of_cons in Hu. destruct Hu as [-> | Hu].
  - apply elem_of_cons. right. apply elem_of_cons. left. reflexivity.
  - apply list_elem_of_singleton in Hu. subst u. apply elem_of_cons. left. reflexivity.
Defined.

Lemma elem_of_concat {A : Type} (x : A) (ls : list (list A)) :
  x ∈ concat ls <-> exists l, l ∈ ls /\ x ∈ l.
Proof.
  rewrite list_elem_of_In, in_concat. split; intros [l [H1 H2]]; exists l;
    rewrite ?list_elem_of_In in *; tauto.
Qed.





(** ** The cancellation pass *)




(** * Further properties of the search *)

Section SearchMore.
Variable distanceBetween : GeoPoint -> GeoPoint -> Q.
Variable users : gmap string UserData.
Variable snapshotsAt : Z -> list (list Doc).
Variable center : GeoPoint.
Variable requested : list string.
Variable targetDonorCount : Z.

Local Abbreviation examine_ := (examine distanceBetween users center requested).
Local Abbreviation forDocs_ := (forDocs distanceBetween users center requested targetDonorCount).
Local Abbreviation forSnapshots_ :=
  (forSnapshots distanceBetween users center requested targetDonorCount).
Local Abbreviation pass_ :=
  (pass distanceBetween users snapshotsAt center requested targetDonorCount).
Local Abbreviation advance_ := (advance targetDonorCount).
Local Abbreviation loopCond_ := (loopCond targetDonorCount).
Local Abbreviation whileLoop_ :=
  (whileLoop distanceBetween users snapshotsAt center requested targetDonorCount).
Local Abbreviation radiusSteps_ :=
  (radiusSteps distanceBetween users snapshotsAt center requested targetDonorCount).

(** Each radius step is a pass of the loop body from a state at which the
    loop condition holds. *)
Lemma radiusSteps_entry (fuel : nat) (st0 : SearchState) (i : nat) (r : Z) (m : DonorMap) :
  radiusSteps_ fuel st0 !! i = Some (r, m) ->
  exists st, currentRadiusKm st = r /\ m = pass_ st /\ loopCond_ st = true.
Proof.
  revert st0 i. induction fuel as [|fuel IH]; intros st0 i; simpl.
  - destruct (loopCond_ st0); intros H; inversion H.
  - destruct (loopCond_ st0) eqn:Hc; [|intros H; inversion H].
    destruct i as [|i]; simpl.
    + intros H. inversion H. exists st0. auto.
    + apply IH.
Qed.

(** The same rule as [radiusSteps_rule], for an invariant that looks at the
    query the inserted document came from. *)
Lemma radiusSteps_rule_sourced (I : Z -> DonorMap -> Prop) :
  (forall r m, I r m -> I (r + stepKm) m) ->
  (forall r m doc md,
      I r m -> doc ∈ concat (snapshotsAt r) -> JS.Map_has (id doc) m = false ->
      examine_ r doc = Some md -> I r (m ++ [(id doc, md)])%list) ->
  forall fuel st, I (currentRadiusKm st) (matchingDonors st) ->
  Forall (fun step => I (fst step) (snd step)) (radiusSteps_ fuel st).
Proof.
  intros Hgrow Hins. induction fuel as [|fuel IH]; intros st HI; simpl.
  - destruct (loopCond_ st); constructor.
  - destruct (loopCond_ st) eqn:Hc; [|constructor].
    destruct (loopCond_true _ _ Hc) as [_ Hlt].
    assert (Hp : I (currentRadiusKm st) (pass_ st)).
    { unfold pass.
      apply (forSnapshots_rule distanceBetween users center requested targetDonorCount
               (I (currentRadiusKm st))); try assumption.
      intros m doc md H1 _ H3 H4 H5. apply Hins; assumption. }
    constructor; [exact Hp|].
    apply IH. rewrite advance_matchingDonors.
    destruct (advance_radius targetDonorCount st (pass_ st)) as [-> | ->];
      [exact Hp | apply Hgrow; exact Hp].
Qed.

(** Where the entries of the accepted map come from. *)
Lemma steps_sourced (fuel : nat) :
  Forall (fun step =>
            forall entry, entry ∈ snd step ->
              exists r' doc, r' <= fst step /\ doc ∈ concat (snapshotsAt r') /\
                             id doc = fst entry /\ examine_ r' doc = Some (snd entry))
    (radiusSteps_ fuel initialState).
Proof.
  apply (radiusSteps_rule_sourced
           (fun radius acc =>
              forall entry, entry ∈ acc ->
                exists r' doc, r' <= radius /\ doc ∈ concat (snapshotsAt r') /\
                               id doc = fst entry /\ examine_ r' doc = Some (snd entry))).
  - intros r0 m0 HI entry Hin. destruct (HI entry Hin) as [r' [doc [Hr H]]].
    exists r', doc. split; [unfold stepKm; lia | exact H].
  - intros r0 m0 doc md0 HI Hdoc _ Hex entry Hin. apply elem_of_app in Hin.
    destruct Hin as [Hin|Hin]; [apply HI; exact Hin|].
    apply list_elem_of_singleton in Hin. subst entry. simpl.
    exists r0, doc. split; [lia|]. auto.
  - intros entry Hin. simpl in Hin. inversion Hin.
Qed.

(** X1. Every entry of the accepted map, at every radius step, is a document
    that a range query returned for a radius up to the one being examined,
    under its own id, and that passed all the checks at that radius. *)
Theorem accepted_entries_come_from_queries (fuel i j : nat) (r : Z) (m : DonorMap)
    (k : string) (md : MatchedDonor) :
  radiusSteps_ fuel initialState !! i = Some (r, m) ->
  m !! j = Some (k, md) ->
  exists r' doc,
    r' <= r /\ doc ∈ concat (snapshotsAt r') /\ id doc = k /\ examine_ r' doc = Some md.
Proof.
  intros Hstep Hentry. pose proof (steps_sourced fuel) as Hall.
  rewrite Forall_forall in Hall.
  exact (Hall (r, m) (list_elem_of_lookup_2 _ _ _ Hstep) (k, md)
           (list_elem_of_lookup_2 _ _ _ Hentry)).
Qed.

(** X2. The donor of every accepted entry is available and has a non-empty
    owner uid, which is the uid recorded in the entry; the profile of that
    uid exists and the token recorded in the entry is its non-empty token. *)
Theorem accepted_donors_available_with_token (fuel i j : nat) (r : Z) (m : DonorMap)
    (k : string) (md : MatchedDonor) :
  radiusSteps_ fuel initialState !! i = Some (r, m) ->
  m !! j = Some (k, md) ->
  isAvailable (donor md) = true /\
  uid (donor md) = Some (donorUid md) /\ donorUid md <> "" /\
  donorToken md <> "" /\
  exists userData, users !! donorUid md = Some userData /\
                   fcmToken userData = Some (donorToken md).
Proof.
  intros Hstep Hentry. pose proof (steps_sourced fuel) as Hall.
  rewrite Forall_forall in Hall.
  destruct (Hall (r, m) (list_elem_of_lookup_2 _ _ _ Hstep) (k, md)
              (list_elem_of_lookup_2 _ _ _ Hentry)) as [r' [doc [_ [_ [_ Hex]]]]].
  simpl in Hex.
  destruct (examine_Some _ _ _ _ _ _ _ Hex)
    as [Hdon [Huid [_ [_ [Hav [userData [Huser Htok]]]]]]].
  assert (Htruthy : forall v s, JS.truthy v = Some s -> v = Some s /\ s <> "").
  { intros v s. unfold JS.truthy. destruct v as [s0|]; [|discriminate].
    destruct (String.eqb s0 "") eqn:He; [discriminate|].
    intros H. inversion H. subst s0. split; [reflexivity|].
    intros ->. discriminate. }
  rewrite Hdon. destruct (Htruthy _ _ Huid) as [Hu Hne].
  destruct (Htruthy _ _ Htok) as [Ht Hnt].
  split; [exact Hav|]. split; [exact Hu|]. split; [exact Hne|]. split; [exact Hnt|].
  exists userData. split; assumption.
Qed.

Lemma forDocs_prefix (radius : Z) (docs : list Doc) (m : DonorMap) :
  m `prefix_of` forDocs_ radius docs m.
Proof.
  revert m. induction docs as [|doc rest IH]; intros m; simpl; [reflexivity|].
  destruct (JS.Map_has (id doc) m) eqn:Hhas; [apply IH|].
  destruct (examine_ radius doc) as [md|]; [|apply IH].
  rewrite (Map_set_fresh _ _ _ Hhas).
  destruct (targetDonorCount <=? JS.Map_size (m ++ [(id doc, md)])%list).
  - apply prefix_app_r. reflexivity.
  - etransitivity; [|apply IH]. apply prefix_app_r. reflexivity.
Qed.

Lemma forSnapshots_prefix (radius : Z) (snaps : list (list Doc)) (m : DonorMap) :
  m `prefix_of` forSnapshots_ radius snaps m.
Proof.
  revert m. induction snaps as [|snap rest IH]; intros m; simpl; [reflexivity|].
  destruct (targetDonorCount <=? JS.Map_size (forDocs_ radius snap m)).
  - apply forDocs_prefix.
  - etransitivity; [apply forDocs_prefix | apply IH].
Qed.

Lemma prefix_keys (m m' : DonorMap) (k : string) :
  m `prefix_of` m' -> k ∈ JS.Map_keys m -> k ∈ JS.Map_keys m'.
Proof.
  intros [added ->] Hk. unfold JS.Map_keys. rewrite map_app. apply elem_of_app. left. exact Hk.
Qed.

Lemma forDocs_complete (radius : Z) (docs : list Doc) (m : DonorMap) (doc : Doc)
    (md : MatchedDonor) :
  JS.Map_size (forDocs_ radius docs m) < targetDonorCount ->
  doc ∈ docs -> examine_ radius doc = Some md ->
  id doc ∈ JS.Map_keys (forDocs_ radius docs m).
Proof.
  revert m. induction docs as [|d rest IH]; intros m Hsize Hin Hex; [inversion Hin|].
  simpl in *. apply elem_of_cons in Hin.
  destruct (JS.Map_has (id d) m) eqn:Hhas.
  - destruct Hin as [-> | Hin]; [|apply IH; assumption].
    eapply prefix_keys; [apply forDocs_prefix|]. apply Map_has_true. exact Hhas.
  - destruct (examine_ radius d) as [md'|] eqn:Hd.
    + rewrite (Map_set_fresh _ _ _ Hhas) in *.
      destruct (targetDonorCount <=? JS.Map_size (m ++ [(id d, md')])%list) eqn:Hfull.
      * apply Z.leb_le in Hfull. lia.
      * destruct Hin as [-> | Hin]; [|apply IH; assumption].
        eapply prefix_keys; [apply forDocs_prefix|].
        unfold JS.Map_keys. rewrite map_app. apply elem_of_app. right. simpl.
        apply list_elem_of_singleton. reflexivity.
    + destruct Hin as [-> | Hin]; [congruence | apply IH; assumption].
Qed.

Lemma forSnapshots_complete (radius : Z) (snaps : list (list Doc)) (m : DonorMap)
    (doc : Doc) (md : MatchedDonor) :
  JS.Map_size (forSnapshots_ radius snaps m) < targetDonorCount ->
  doc ∈ concat snaps -> examine_ radius doc = Some md ->
  id doc ∈ JS.Map_keys (forSnapshots_ radius snaps m).
Proof.
  revert m. induction snaps as [|snap rest IH]; intros m Hsize Hin Hex; [inversion Hin|].
  simpl in *. apply elem_of_app in Hin.
  destruct (targetDonorCount <=? JS.Map_size (forDocs_ radius snap m)) eqn:Hfull.
  - apply Z.leb_le in Hfull. lia.
  - destruct Hin as [Hin|Hin]; [|apply IH; assumption].
    eapply prefix_keys; [apply forSnapshots_prefix|].
    apply Z.leb_gt in Hfull. eapply forDocs_complete; eassumption.
Qed.

(** X3. A radius step that ends below the target has missed nothing: every
    document returned by the queries of that radius that passes the checks
    at that radius is a key of the accepted map. *)
Theorem step_below_target_accepts_every_eligible (fuel i : nat) (r : Z) (m : DonorMap)
    (doc : Doc) (md : MatchedDonor) :
  radiusSteps_ fuel initialState !! i = Some (r, m) ->
  JS.Map_size m < targetDonorCount ->
  doc ∈ concat (snapshotsAt r) ->
  examine_ r doc = Some md ->
  id doc ∈ JS.Map_keys m.
Proof.
  intros Hstep Hsize Hdoc Hex.
  destruct (radiusSteps_entry _ _ _ _ _ Hstep) as [st [Hr [Hm _]]].
  subst r m. unfold pass in *. eapply forSnapshots_complete; eassumption.
Qed.

(** X4. The exhausted flag of the result is set exactly when the search ends
    with fewer donors than the target, and exactly then the radius returned
    is 52, past the ceiling; otherwise the radius returned is at most 50. *)
Theorem exhausted_flag_iff_below_target (fuel : nat) (res : SearchState) :
  whileLoop_ fuel initialState = Some res ->
  (expandedToMax res = true <-> JS.Map_size (matchingDonors res) < targetDonorCount) /\
  (expandedToMax res = true <-> currentRadiusKm res = maxRadiusKm + stepKm) /\
  (expandedToMax res = false -> startRadiusKm <= currentRadiusKm res <= maxRadiusKm).
Proof.
  intros Hres.
  apply (whileLoop_rule distanceBetween users snapshotsAt center requested targetDonorCount
           (fun st =>
              (exists n, currentRadiusKm st = 2 * n) /\
              startRadiusKm <= currentRadiusKm st <= maxRadiusKm + stepKm /\
              (expandedToMax st = true <-> maxRadiusKm < currentRadiusKm st) /\
              (maxRadiusKm < currentRadiusKm st ->
               JS.Map_size (matchingDonors st) < targetDonorCount)))
    in Hres.
  - destruct Hres as [[[n Heven] [Hrange [Hflag Hover]]] Hexit].
    unfold maxRadiusKm, stepKm, startRadiusKm in *.
    unfold loopCond in Hexit. apply andb_false_iff in Hexit.
    destruct (Z_lt_le_dec 50 (currentRadiusKm res)) as [Hgt|Hle].
    + pose proof (Hover Hgt) as Hsize. pose proof (proj2 Hflag Hgt) as Hon.
      split; [|split].
      * split; intros _; assumption.
      * split; intros _; [lia | assumption].
      * intros Hoff. congruence.
    + assert (Hfull : targetDonorCount <= JS.Map_size (matchingDonors res)).
      { destruct Hexit as [He|He].
        - apply Z.leb_gt in He. unfold maxRadiusKm in He. lia.
        - apply Z.ltb_ge in He. exact He. }
      assert (Hoff : expandedToMax res = true -> False).
      { intros Hon. apply Hflag in Hon. lia. }
      split; [|split].
      * split; [intros Hon; destruct (Hoff Hon) | lia].
      * split; [intros Hon; destruct (Hoff Hon) | lia].
      * intros _. lia.
  - intros st Hc [[n Heven] [Hrange [Hflag Hover]]].
    destruct (loopCond_true _ _ Hc) as [Hmax _].
    unfold maxRadiusKm, stepKm, startRadiusKm in *.
    assert (Hoff : expandedToMax st = false).
    { destruct (expandedToMax st); [|reflexivity]. exfalso.
      assert (50 < currentRadiusKm st) by (apply Hflag; reflexivity). lia. }
    unfold advance.
    destruct (JS.Map_size (pass_ st) <? targetDonorCount) eqn:Hp; simpl.
    + apply Z.ltb_lt in Hp. unfold maxRadiusKm, stepKm.
      split; [exists (n + 1); lia|]. split; [lia|].
      destruct (50 <? currentRadiusKm st + 2) eqn:Hover'.
      * apply Z.ltb_lt in Hover'. split; [split; [intros _; exact Hover' | reflexivity]|].
        intros _. exact Hp.
      * apply Z.ltb_ge in Hover'. rewrite Hoff. split; [split; [discriminate | lia]|]. lia.
    + rewrite Hoff. split; [exists n; exact Heven|]. split; [lia|].
      split; [split; [discriminate | lia]|]. lia.
  - simpl. unfold maxRadiusKm, stepKm, startRadiusKm.
    split; [exists 1; reflexivity|]. split; [lia|].
    split; [split; [discriminate | lia]|]. lia.
Qed.


End SearchMore.

Lemma accepted_entries_come_from_queries_witness :
  exists r' doc,
    r' <= 4 /\ doc ∈ concat (Scenario.snapshotsAt r') /\ id doc = "u2_daytime" /\
    examine Scenario.meridianDistance Scenario.users Scenario.center Scenario.requested r' doc
    = Some (snd (Scenario.accepted "u2" "O-" 3)).
Proof.
  apply (accepted_entries_come_from_queries Scenario.meridianDistance Scenario.users
           Scenario.snapshotsAt Scenario.center Scenario.requested 3 25 1 1 4
           [Scenario.accepted "u1" " o+ " (3 # 2); Scenario.accepted "u2" "O-" 3]);
    vm_compute; reflexivity.
Defined.

Lemma accepted_donors_available_with_token_witness :
  isAvailable (donor (snd (Scenario.accepted "u2" "O-" 3))) = true /\
  uid (donor (snd (Scenario.accepted "u2" "O-" 3))) = Some "u2" /\ "u2" <> "" /\
  "token-u2" <> "" /\
  exists userData, Scenario.users !! "u2" = Some userData /\
                   fcmToken userData = Some "token-u2".
Proof.
  apply (accepted_donors_available_with_token Scenario.meridianDistance Scenario.users
           Scenario.snapshotsAt Scenario.center Scenario.requested 3 25 1 1 4
           [Scenario.accepted "u1" " o+ " (3 # 2); Scenario.accepted "u2" "O-" 3]
           "u2_daytime" (snd (Scenario.accepted "u2" "O-" 3)));
    vm_compute; reflexivity.
Defined.

Lemma step_below_target_accepts_every_eligible_witness :
  "u2_daytime"
    ∈ JS.Map_keys [Scenario.accepted "u1" " o+ " (3 # 2); Scenario.accepted "u2" "O-" 3].
Proof.
  apply (step_below_target_accepts_every_eligible Scenario.meridianDistance Scenario.users
           Scenario.snapshotsAt Scenario.center Scenario.requested 3 25 1 4
           [Scenario.accepted "u1" " o+ " (3 # 2); Scenario.accepted "u2" "O-" 3]
           (Scenario.donorDoc "u2" "daytime" "O-" 3) (snd (Scenario.accepted "u2" "O-" 3))).
  - vm_compute. reflexivity.
  - vm_compute. reflexivity.
  - vm_compute. do 3 (apply elem_of_cons; right). apply elem_of_cons. left. reflexivity.
  - vm_compute. reflexivity.
Defined.

Lemma exhausted_flag_iff_below_target_witness :
  startRadiusKm <= 6 <= maxRadiusKm.
Proof.
  apply (proj2 (proj2 (exhausted_flag_iff_below_target Scenario.meridianDistance
                         Scenario.users Scenario.snapshotsAt Scenario.center
                         Scenario.requested 3 25
                         {| matchingDonors :=
                              [Scenario.accepted "u1" " o+ " (3 # 2);
                               Scenario.accepted "u2" "O-" 3;
                               Scenario.accepted "u3" "o+" (9 # 2)];
                            expandedToMax := false; currentRadiusKm := 6 |}
                         ltac:(vm_compute; reflexivity)))).
  reflexivity.
Defined.


(** * Further properties of the creation pass *)

Lemma truthy_Some (v : option string) (s : string) :
  JS.truthy v = Some s -> v = Some s /\ s <> "".
Proof.
  unfold JS.truthy. destruct v as [s0|]; [|discriminate].
  destruct (String.eqb s0 "") eqn:He; [discriminate|].
  intros H. inversion H. subst s0. split; [reflexivity|]. intros ->. discriminate.
Qed.

(** The no-donor notice goes to the token of the requester and nowhere
    else. *)
Lemma sendNoDonorNotification_tokens (users : gmap string UserData) (requestId : string)
    (requestData : RequestData) (token : string) :
  token ∈ pushedTokens (sendNoDonorNotification users requestId requestData) ->
  exists requesterId,
    JS.truthy (requestedBy requestData) = Some requesterId /\
    tokenOf users requesterId = Some token.
Proof.
  unfold sendNoDonorNotification, tokenOf.
  destruct (JS.truthy (requestedBy requestData)) as [requesterId|]; [|intros H; inversion H].
  destruct (users !! requesterId) as [userData|] eqn:Hu; [|intros H; inversion H].
  destruct (JS.truthy (fcmToken userData)) as [t|] eqn:Ht; [|intros H; inversion H].
  unfold pushedTokens. simpl. intros H. apply list_elem_of_singleton in H. subst token.
  exists requesterId. rewrite Hu. auto.
Qed.

Section CreatedMore.
Variable distanceBetween : GeoPoint -> GeoPoint -> Q.
Variable JSON_parse : string -> option JS.JSON.
Variable providers : gmap string ProviderData.
Variable users : gmap string UserData.
Variable snapshotsAt : Z -> list (list Doc).
Variable filterResponse : AxiosResult.

Local Abbreviation onBloodRequestCreated_ :=
  (onBloodRequestCreated distanceBetween JSON_parse providers users snapshotsAt filterResponse).

(** X6. Whatever the event, the stores and the reply of the agent, the
    creation pass writes no message record, never updates the request and
    sets no match record; the only tokens it pushes to are the token of the
    requester of the request. *)
Theorem created_pass_writes_nothing (providerId requestId : string)
    (requestData : RequestData) :
  let effects := snd (onBloodRequestCreated_ providerId requestId requestData) in
  (forall e, e ∈ effects ->
             exists tokens notificationTitle body payload,
               e = sendEachForMulticast tokens notificationTitle body payload) /\
  (forall token, token ∈ pushedTokens effects ->
                 exists requesterId,
                   JS.truthy (requestedBy requestData) = Some requesterId /\
                   tokenOf users requesterId = Some token).
Proof.
  intros effects.
  destruct (created_pass_only_tells_requester distanceBetween JSON_parse providers users
              snapshotsAt filterResponse providerId requestId requestData) as [H|H];
    fold effects in H; rewrite H.
  - split; intros x Hx; inversion Hx.
  - split; [|apply sendNoDonorNotification_tokens].
    unfold sendNoDonorNotification.
    destruct (JS.truthy (requestedBy requestData)) as [requesterId|];
      [|intros e He; inversion He].
    destruct (users !! requesterId) as [userData|]; [|intros e He; inversion He].
    destruct (JS.truthy (fcmToken userData)) as [token|]; [|intros e He; inversion He].
    intros e He. apply list_elem_of_singleton in He. subst e. eauto.
Qed.


End CreatedMore.

Lemma created_pass_writes_nothing_witness :
  exists requesterId,
    JS.truthy (requestedBy (Scenario.request None None)) = Some requesterId /\
    tokenOf Scenario.users requesterId = Some "token-requester".
Proof.
  apply (created_pass_writes_nothing Scenario.meridianDistance Scenario.JSON_parse
           Scenario.providers Scenario.users Scenario.otherGroupsAt AxiosRejects
           "provider" "request-1" (Scenario.request None None)).
  vm_compute. constructor.
Defined.


(** * Further properties of the relevance filter *)

Section FilterMore.
Variable JSON_parse : string -> option JS.JSON.

Local Abbreviation keepInto ids :=
  (fold_left
     (fun (acc : DonorMap) (d : MatchedDonor) =>
        if JS.includesString (donorUid d) ids then JS.Map_set (donorUid d) d acc else acc)).

Lemma keepInto_keys (ids : list JS.JSON) (l : list MatchedDonor) (acc : DonorMap)
    (u : string) :
  u ∈ JS.Map_keys (keepInto ids l acc) <->
  u ∈ JS.Map_keys acc \/ (u ∈ map donorUid l /\ JS.includesString u ids = true).
Proof.
  revert acc. induction l as [|d rest IH]; intros acc; simpl.
  - rewrite elem_of_nil. tauto.
  - rewrite IH, elem_of_cons.
    destruct (JS.includesString (donorUid d) ids) eqn:Hd.
    + rewrite Map_set_keys. split.
      * intros [[-> | H] | [H1 H2]]; auto.
      * intros [H | [[-> | H1] H2]]; auto.
    + split.
      * intros [H | [H1 H2]]; auto.
      * intros [H | [[-> | H1] H2]]; [auto | congruence | auto].
Qed.

Lemma filterDonors_parsed (m : DonorMap) (response : AxiosResult) (ids : list JS.JSON) :
  outcomeOf JSON_parse response = parsedList ids ->
  filterDonors JSON_parse m response = keepListed ids m.
Proof.
  unfold outcomeOf, filterDonors. destruct response as [|status reply]; [discriminate|].
  destruct (JS.truthy reply) as [text|]; [|discriminate].
  destruct (status =? 200); [|discriminate].
  destruct (JSON_parse text) as [[| | | |ids'|]|]; try discriminate.
  intros H. inversion H. reflexivity.
Qed.

(** X8. When the agent replies 200 with a JSON array, the filtered map is
    keyed by owner uid, and its keys are exactly the owner uids of the map
    of the search that the array contains as strings; in particular an array
    of values that are not strings keeps nobody. *)
Theorem filter_keeps_exactly_listed_uids (m : DonorMap) (response : AxiosResult)
    (ids : list JS.JSON) :
  outcomeOf JSON_parse response = parsedList ids ->
  let filtered := filterDonors JSON_parse m response in
  JS.Map_keys filtered = donorIdsOf filtered /\
  NoDup (JS.Map_keys filtered) /\
  forall u, u ∈ JS.Map_keys filtered <->
            u ∈ donorIdsOf m /\ JS.includesString u ids = true.
Proof.
  intros Hout filtered. subst filtered. rewrite (filterDonors_parsed _ _ _ Hout).
  unfold keepListed. split; [|split].
  - apply keyed_keys. apply keepInto_keyed. constructor.
  - assert (Hgen : forall l acc, NoDup (JS.Map_keys acc) ->
                                 NoDup (JS.Map_keys (keepInto ids l acc))).
    { induction l as [|d rest IH]; intros acc Hacc; simpl; [exact Hacc|].
      apply IH. destruct (JS.includesString (donorUid d) ids); [|exact Hacc].
      clear IH. induction acc as [|[k v] acc IHacc]; simpl.
      - apply NoDup_singleton.
      - simpl in Hacc. apply NoDup_cons in Hacc. destruct Hacc as [Hk Hacc].
        destruct (String.eqb k (donorUid d)) eqn:Heq; simpl.
        + apply NoDup_cons. split; assumption.
        + apply NoDup_cons. split; [|apply IHacc; exact Hacc].
          intros Hin. apply (Map_set_keys (donorUid d) d acc k) in Hin.
          destruct Hin as [-> | Hin]; [|exact (Hk Hin)].
          rewrite String.eqb_refl in Heq. discriminate. }
    apply Hgen. simpl. apply NoDup_nil_2.
  - intros u. rewrite keepInto_keys. simpl. rewrite elem_of_nil. unfold donorIdsOf. tauto.
Qed.

End FilterMore.

Lemma filter_keeps_exactly_listed_uids_witness :
  "u2" ∈ JS.Map_keys
           (filterDonors Scenario.JSON_parse
              [Scenario.accepted "u1" "O+" 1; Scenario.accepted "u2" "O-" 3]
              (AxiosResponse 200 (Some Scenario.replyKeepingU2))).
Proof.
  apply (filter_keeps_exactly_listed_uids Scenario.JSON_parse
           [Scenario.accepted "u1" "O+" 1; Scenario.accepted "u2" "O-" 3]
           (AxiosResponse 200 (Some Scenario.replyKeepingU2)) [JS.JString "u2"]);
    [vm_compute; reflexivity|].
  split; [|vm_compute; reflexivity].
  vm_compute. apply elem_of_cons. right. apply elem_of_cons. left. reflexivity.
Defined.

Section CreatedFiltered.
Variable distanceBetween : GeoPoint -> GeoPoint -> Q.
Variable JSON_parse : string -> option JS.JSON.
Variable providers : gmap string ProviderData.
Variable users : gmap string UserData.
Variable snapshotsAt : Z -> list (list Doc).
Variable filterResponse : AxiosResult.

(** The result of [findMatchingDonors] is the result of the loop run with
    [maxIterations] units of fuel. *)
Lemma findMatchingDonors_whileLoop (center : GeoPoint) (requested : list string)
    (target : Z) (found : SearchState) :
  findMatchingDonors distanceBetween users snapshotsAt center requested target = Some found ->
  whileLoop distanceBetween users snapshotsAt center requested target maxIterations
    initialState = Some found.
Proof.
  intros Hfound.
  destruct (whileLoop_enough_fuel distanceBetween users snapshotsAt center requested target
              maxIterations initialState) as [res Hres]; [vm_compute; intros Hlt; discriminate Hlt|].
  assert (Hsame : findMatchingDonors distanceBetween users snapshotsAt center requested target
                  = Some res) by exact Hres.
  rewrite Hsame in Hfound. inversion Hfound. subst found. exact Hres.
Qed.

(** X9. When the agent replies 200 with a JSON array that names none of
    the donors found, the pass sends the requester the no-donor notice, as
    it does when the search itself finds nobody. *)
Theorem created_with_all_filtered_out_tells_requester (providerId requestId : string)
    (requestData : RequestData) (providerData : ProviderData) (center : GeoPoint)
    (found : SearchState) (ids : list JS.JSON) :
  providers !! providerId = Some providerData ->
  providerGeo providerData = Some center ->
  findMatchingDonors distanceBetween users snapshotsAt center
    (default [] (requestBloodGroup requestData)) (targetOf (unitsNeededOf requestData))
  = Some found ->
  outcomeOf JSON_parse filterResponse = parsedList ids ->
  (forall u, u ∈ donorIdsOf (matchingDonors found) -> JS.includesString u ids = false) ->
  onBloodRequestCreated distanceBetween JSON_parse providers users snapshotsAt filterResponse
    providerId requestId requestData
  = (Returned, sendNoDonorNotification users requestId requestData).
Proof.
  intros Hprovider Hgeo Hfound Hout Hnone.
  unfold onBloodRequestCreated. rewrite Hprovider, Hgeo, Hfound.
  pose proof (targetOf_bounds (unitsNeededOf requestData)) as Htarget.
  destruct (JS.Map_size (matchingDonors found) =? 0) eqn:Hzero.
  - apply Z.eqb_eq in Hzero. apply findMatchingDonors_whileLoop in Hfound.
    assert (Hflag : expandedToMax found = true).
    { apply (result_flag distanceBetween users snapshotsAt center
               (default [] (requestBloodGroup requestData))
               (targetOf (unitsNeededOf requestData)) maxIterations found Hfound). lia. }
    rewrite Hflag. reflexivity.
  - rewrite (filterDonors_parsed _ _ _ _ Hout).
    assert (Hempty : keepListed ids (matchingDonors found) = []).
    { destruct (keepListed ids (matchingDonors found)) as [|[k v] rest] eqn:Hk;
        [reflexivity|]. exfalso.
      assert (Hin : k ∈ JS.Map_keys (keepListed ids (matchingDonors found))).
      { rewrite Hk. simpl. apply elem_of_cons. left. reflexivity. }
      unfold keepListed in Hin. apply (keepInto_keys JSON_parse) in Hin. simpl in Hin.
      rewrite elem_of_nil in Hin. destruct Hin as [[] | [Hu Hinc]].
      rewrite (Hnone k Hu) in Hinc. discriminate Hinc. }
    rewrite Hempty. change (JS.Map_size (@nil (string * MatchedDonor)) =? 0) with true.
    cbv iota. reflexivity.
Qed.

End CreatedFiltered.

Lemma created_with_all_filtered_out_tells_requester_witness :
  onBloodRequestCreated Scenario.meridianDistance Scenario.JSON_parse Scenario.providers
    Scenario.users (fun _ => [[Scenario.donorDoc "u1" "daytime" "O+" 1]])
    (AxiosResponse 200 (Some Scenario.replyKeepingU2)) "provider" "request-1"
    (Scenario.request None None)
  = (Returned, sendNoDonorNotification Scenario.users "request-1" (Scenario.request None None)).
Proof.
  apply (created_with_all_filtered_out_tells_requester Scenario.meridianDistance
           Scenario.JSON_parse Scenario.providers Scenario.users
           (fun _ => [[Scenario.donorDoc "u1" "daytime" "O+" 1]])
           (AxiosResponse 200 (Some Scenario.replyKeepingU2)) "provider" "request-1"
           (Scenario.request None None)
           {| providerGeo := Some Scenario.center; name := Some "General Hospital";
              organizationName := None; organisationName := None;
              address := Some "1 Marina" |} Scenario.center
           {| matchingDonors := [Scenario.accepted "u1" "O+" 1];
              expandedToMax := true; currentRadiusKm := 52 |}
           [JS.JString "u2"]);
    try (vm_compute; reflexivity).
  intros u Hu. vm_compute in Hu. apply list_elem_of_singleton in Hu. subst u.
  vm_compute. reflexivity.
Defined.

(** * Further properties of the fan-out helpers *)

Lemma includes_true (x : string) (l : list string) : JS.includes x l = true <-> x ∈ l.
Proof.
  unfold JS.includes. rewrite existsb_exists, list_elem_of_In. split.
  - intros [y [Hy Heq]]. apply String.eqb_eq in Heq. subst y. exact Hy.
  - intros Hx. exists x. split; [exact Hx | apply String.eqb_refl].
Qed.

Lemma uniqueInto_spec (l seen : list string) :
  NoDup seen ->
  let result :=
    fold_left (fun seen x => if JS.includes x seen then seen else (seen ++ [x])%list) l seen in
  NoDup result /\ forall x, x ∈ result <-> x ∈ seen \/ x ∈ l.
Proof.
  revert seen. induction l as [|y rest IH]; intros seen Hnd; simpl.
  - split; [exact Hnd|]. intros x. rewrite elem_of_nil. tauto.
  - destruct (JS.includes y seen) eqn:Hy.
    + destruct (IH seen Hnd) as [H1 H2]. split; [exact H1|].
      intros x. rewrite H2, elem_of_cons. apply includes_true in Hy.
      split; [tauto|]. intros [H | [-> | H]]; auto.
    + assert (Hfresh : y ∉ seen).
      { intros Hin. apply includes_true in Hin. congruence. }
      assert (Hnd' : NoDup (seen ++ [y])%list).
      { apply NoDup_app. split; [exact Hnd|]. split; [|apply NoDup_singleton].
        intros x Hx Hx'. apply list_elem_of_singleton in Hx'. subst x. exact (Hfresh Hx). }
      destruct (IH _ Hnd') as [H1 H2]. split; [exact H1|].
      intros x. rewrite H2, elem_of_app, list_elem_of_singleton, elem_of_cons. tauto.
Qed.

(** X10. [writeMessagesToDonors] adds one message record, under [users],
    for each owner uid of the map and none for anybody else: two documents
    of one user in the map give that user a single message. *)
Theorem writeMessagesToDonors_one_per_uid (m : DonorMap) :
  NoDup (writeMessagesToDonors m) /\
  (forall e, e ∈ writeMessagesToDonors m <->
             exists u, u ∈ donorIdsOf m /\ e = messagesAdd "users" u).
Proof.
  unfold writeMessagesToDonors, uniqueInOrder.
  destruct (uniqueInto_spec (donorIdsOf m) [] (NoDup_nil_2)) as [Hnd Hin].
  split.
  - apply NoDup_fmap_2; [|exact Hnd]. intros x y H. inversion H. reflexivity.
  - intros e. rewrite list_elem_of_In, in_map_iff. split.
    + intros [u [<- Hu]]. exists u. split; [|reflexivity].
      apply list_elem_of_In in Hu. apply Hin in Hu. rewrite elem_of_nil in Hu. tauto.
    + intros [u [Hu ->]]. exists u. split; [reflexivity|].
      apply list_elem_of_In. apply Hin. right. exact Hu.
Qed.

Example writeMessagesToDonors_two_docs_one_user :
  writeMessagesToDonors Scenario.twoDocsOfOneUser = [messagesAdd "users" "u1"].
Proof. vm_compute. reflexivity. Qed.

(** * Further properties of the confirmation pass *)

(** X11. Every effect of the confirmation pass belongs to a donor id that
    is in the confirmed list after the update and not before it: the pushes
    go to the one token of the requester with that donor's id in the
    payload, the match record is set under that donor for this request, and
    the message is added under that donor in [donors]. Donors confirmed
    before the update get nothing again. *)
Theorem confirmation_effects_are_for_new_donors (providers : gmap string ProviderData)
    (users : gmap string UserData) (hourAt : nat -> Z) (providerId requestId : string)
    (before after : RequestData) (e : Effect) :
  e ∈ onMatchedDonorAdded providers users hourAt providerId requestId before after ->
  exists requesterId token uidOfDonor,
    JS.truthy (requestedBy after) = Some requesterId /\
    tokenOf users requesterId = Some token /\
    (uidOfDonor ∈ confirmedDonors after) /\ (uidOfDonor ∉ confirmedDonors before) /\
    is_Some (users !! uidOfDonor) /\
    ((exists body, e = sendEachForMulticast [token]
                         "A suitable donor has confirmed availability." body
                         [("requestId", requestId); ("donorId", uidOfDonor);
                          ("notificationType", "DONOR_MATCHED")]) \/
     e = matchSet uidOfDonor requestId
           {| status := "matched"; providerName := providerNameOf (providers !! providerId);
              createdAt := serverTimestamp |} \/
     e = messagesAdd "donors" uidOfDonor).
Proof.
  unfold onMatchedDonorAdded, confirmedDonors.
  destruct (matchedDonors before) as [beforeList|]; [|intros H; inversion H].
  destruct (matchedDonors after) as [afterList|]; [|intros H; inversion H].
  destruct (Nat.eqb (length (newDonorsOf beforeList afterList)) 0); [intros H; inversion H|].
  destruct (JS.truthy (requestedBy after)) as [requesterId|]; [|intros H; inversion H].
  destruct (users !! requesterId) as [userData|] eqn:Hrequester; [|intros H; inversion H].
  destruct (JS.truthy (fcmToken userData)) as [token|] eqn:Htoken; [|intros H; inversion H].
  intros He. apply elem_of_concat in He. destruct He as [l [Hl He]].
  apply elem_of_lookup_imap_1 in Hl. destruct Hl as [i [u [-> Hu]]].
  unfold confirmDonor in He. destruct (users !! u) as [donorData|] eqn:Hdonor;
    [|inversion He].
  assert (Hnew : u ∈ afterList /\ u ∉ beforeList).
  { apply list_elem_of_lookup_2 in Hu. unfold newDonorsOf in Hu.
    apply list_elem_of_In, filter_In in Hu. destruct Hu as [Hin Hnot].
    split; [apply list_elem_of_In; exact Hin|].
    intros Hb. apply includes_true in Hb. rewrite Hb in Hnot. discriminate Hnot. }
  exists requesterId, token, u. split; [reflexivity|].
  split; [unfold tokenOf; rewrite Hrequester; exact Htoken|].
  simpl. split; [tauto|]. split; [tauto|]. split; [rewrite Hdonor; eauto|].
  apply elem_of_cons in He. destruct He as [-> | He]; [left; eauto|].
  apply elem_of_cons in He. destruct He as [-> | He]; [right; left; reflexivity|].
  apply list_elem_of_singleton in He. subst e. right. right. reflexivity.
Qed.

Lemma confirmation_effects_are_for_new_donors_witness :
  exists requesterId token uidOfDonor,
    JS.truthy (requestedBy (Scenario.request (Some ["u1"; "u2"]) None)) = Some requesterId /\
    tokenOf Scenario.users requesterId = Some token /\
    (uidOfDonor ∈ confirmedDonors (Scenario.request (Some ["u1"; "u2"]) None)) /\
    (uidOfDonor ∉ confirmedDonors (Scenario.request (Some ["u1"]) None)) /\
    is_Some (Scenario.users !! uidOfDonor) /\
    ((exists body, messagesAdd "donors" "u2"
                   = sendEachForMulticast [token]
                       "A suitable donor has confirmed availability." body
                       [("requestId", "request-1"); ("donorId", uidOfDonor);
                        ("notificationType", "DONOR_MATCHED")]) \/
     messagesAdd "donors" "u2"
     = matchSet uidOfDonor "request-1"
         {| status := "matched";
            providerName := providerNameOf (Scenario.providers !! "provider");
            createdAt := serverTimestamp |} \/
     messagesAdd "donors" "u2" = messagesAdd "donors" uidOfDonor).
Proof.
  apply (confirmation_effects_are_for_new_donors Scenario.providers Scenario.users
           (fun _ => 9) "provider" "request-1"
           (Scenario.request (Some ["u1"]) None) (Scenario.request (Some ["u1"; "u2"]) None)
           (messagesAdd "donors" "u2")).
  vm_compute. do 2 (apply elem_of_cons; right). apply elem_of_cons. left. reflexivity.
Defined.

(** * Normal forms of the strings the handlers compare and show *)


















(** * The callable functions *)

Lemma lowerChar_idempotent (c : ascii) : lowerChar (lowerChar c) = lowerChar c.
Proof. destruct c as [[] [] [] [] [] [] [] []]; reflexivity. Qed.

Lemma toLowerCase_idempotent (s : string) : toLowerCase (toLowerCase s) = toLowerCase s.
Proof.
  induction s as [|c rest IH]; simpl; [reflexivity|].
  rewrite lowerChar_idempotent, IH. reflexivity.
Qed.

Lemma suggestionsOut_inr (l : list Suggestion) (outs : list SuggestionOut) :
  suggestionsOut l = inr outs ->
  length outs = length l /\
  forall i s, l !! i = Some s ->
    exists p t, placePrediction s = Some p /\ textOf p = Some t /\
                outs !! i = Some {| outPlaceId := placeId p; description := t |}.
Proof.
  revert outs. induction l as [|s rest IH]; intros outs; simpl.
  - intros H. inversion H. split; [reflexivity|]. intros i s Hs. inversion Hs.
  - unfold suggestionOut at 1. destruct (placePrediction s) as [p|] eqn:Hp; [|discriminate].
    destruct (textOf p) as [t|] eqn:Ht; [|discriminate].
    destruct (suggestionsOut rest) as [thrown|os] eqn:Hrest; [discriminate|].
    intros H. inversion H. subst outs. destruct (IH os eq_refl) as [Hlen Hall].
    split; [simpl; rewrite Hlen; reflexivity|].
    intros [|i] s' Hs'; simpl in *.
    + inversion Hs'. subst s'. exists p, t. auto.
    + apply Hall. exact Hs'.
Qed.

Lemma suggestionsOut_inl (l : list Suggestion) (s : Suggestion) :
  s ∈ l -> placePrediction s = None -> exists t, suggestionsOut l = inl t.
Proof.
  induction l as [|s0 rest IH]; intros Hin Hnone; [inversion Hin|].
  simpl. apply elem_of_cons in Hin. destruct Hin as [<- | Hin].
  - unfold suggestionOut. rewrite Hnone. eauto.
  - destruct (suggestionOut s0) as [t|o]; [eauto|].
    destruct (IH Hin Hnone) as [t ->]. eauto.
Qed.

(** X14. Whatever goes wrong in [googlePlacesAutocomplete], the client
    gets an error with the code [internal]: the [invalid-argument] error of
    a missing input is thrown inside the [try] and rethrown by the [catch],
    so a call without input fails with [internal], the message
    [Input required.], and no request to the Places service. *)
Theorem autocomplete_errors_are_internal (post : AutocompleteBody -> PlacesPostResult)
    (data : AutocompleteData) :
  (forall e, snd (googlePlacesAutocomplete post data) = inl e -> codeOf e = "internal") /\
  (JS.truthy (input data) = None ->
   googlePlacesAutocomplete post data = ([], inl (httpsError "internal" "Input required."))).
Proof.
  unfold googlePlacesAutocomplete. split.
  - intros e. destruct (JS.truthy (input data)) as [text|]; simpl.
    + destruct (post (autocompleteBody text data)) as [err|suggestions].
      * intros H. inversion H. reflexivity.
      * destruct (suggestionsOut (default [] suggestions)); intros H; inversion H.
        reflexivity.
    + intros H. inversion H. reflexivity.
  - intros ->. reflexivity.
Qed.

Lemma autocomplete_errors_are_internal_witness :
  googlePlacesAutocomplete Accounts.places
    {| input := Some ""; locationType := Some "city"; regionCode := None;
       cityContext := None |}
  = ([], inl (httpsError "internal" "Input required.")).
Proof.
  apply (autocomplete_errors_are_internal Accounts.places
           {| input := Some ""; locationType := Some "city"; regionCode := None;
              cityContext := None |}).
  reflexivity.
Defined.

(** X15. A call with an input posts exactly one body. Its region list has
    one code, already in lower case, which is [ng] when no region is given;
    the language is [en]; primary types are sent exactly for the location
    types [city], [neighborhood] and [facility]; and the text sent is the
    input itself unless the location type is [neighborhood]. *)
Theorem autocomplete_posts_one_body (post : AutocompleteBody -> PlacesPostResult)
    (data : AutocompleteData) (text : string) :
  JS.truthy (input data) = Some text ->
  exists body code,
    fst (googlePlacesAutocomplete post data) = [body] /\
    includedRegionCodes body = [code] /\ toLowerCase code = code /\
    (JS.truthy (regionCode data) = None -> code = "ng") /\
    languageCode body = "en" /\
    (includedPrimaryTypes body = None <->
     locationType data <> Some "city" /\ locationType data <> Some "neighborhood" /\
     locationType data <> Some "facility") /\
    (locationType data <> Some "neighborhood" -> bodyInput body = text).
Proof.
  intros Hinput. unfold googlePlacesAutocomplete. rewrite Hinput. simpl.
  eexists. eexists. split; [reflexivity|]. simpl.
  split; [reflexivity|]. split; [|split; [|split; [reflexivity|split]]].
  - destruct (JS.truthy (regionCode data)); [apply toLowerCase_idempotent | reflexivity].
  - intros ->. reflexivity.
  - unfold primaryTypesOf. destruct (locationType data) as [t|].
    + destruct (String.eqb t "city") eqn:H1; [apply String.eqb_eq in H1; subst t|].
      { simpl. split; [discriminate | intros [H _]; congruence]. }
      destruct (String.eqb t "neighborhood") eqn:H2; [apply String.eqb_eq in H2; subst t|].
      { simpl. split; [discriminate | intros [_ [H _]]; congruence]. }
      destruct (String.eqb t "facility") eqn:H3; [apply String.eqb_eq in H3; subst t|].
      { simpl. split; [discriminate | intros [_ [_ H]]; congruence]. }
      simpl. split; [|reflexivity]. intros _.
      apply String.eqb_neq in H1, H2, H3. repeat split; congruence.
    + simpl. split; [|reflexivity]. intros _. repeat split; discriminate.
  - intros Hnot. destruct (locationType data) as [t|]; [|reflexivity].
    destruct (String.eqb t "neighborhood") eqn:H2; [|reflexivity].
    apply String.eqb_eq in H2. subst t. congruence.
Qed.

Lemma autocomplete_posts_one_body_witness :
  exists body code,
    fst (googlePlacesAutocomplete Accounts.places Accounts.lagosQuery) = [body] /\
    includedRegionCodes body = [code] /\ toLowerCase code = code /\
    (JS.truthy (regionCode Accounts.lagosQuery) = None -> code = "ng") /\
    languageCode body = "en" /\
    (includedPrimaryTypes body = None <->
     locationType Accounts.lagosQuery <> Some "city" /\
     locationType Accounts.lagosQuery <> Some "neighborhood" /\
     locationType Accounts.lagosQuery <> Some "facility") /\
    (locationType Accounts.lagosQuery <> Some "neighborhood" -> bodyInput body = "Ikeja").
Proof.
  apply (autocomplete_posts_one_body Accounts.places Accounts.lagosQuery "Ikeja").
  reflexivity.
Defined.

Example autocomplete_neighborhood_body :
  fst (googlePlacesAutocomplete Accounts.places Accounts.lagosQuery)
  = [{| bodyInput := "Ikeja, Lagos"; includedRegionCodes := ["ng"]; languageCode := "en";
        includedPrimaryTypes := Some ["neighborhood"; "sublocality"] |}].
Proof. vm_compute. reflexivity. Qed.

(** X16. The callable returns one suggestion per suggestion of the
    response, in the same order, each with the place id and the text of its
    place prediction (none when the response has no suggestions); and it is
    all or nothing: one suggestion without a place prediction makes the whole
    call fail. *)
Theorem autocomplete_maps_every_suggestion (post : AutocompleteBody -> PlacesPostResult)
    (data : AutocompleteData) :
  (forall outs,
      snd (googlePlacesAutocomplete post data) = inr outs ->
      exists text suggestions,
        JS.truthy (input data) = Some text /\
        post (autocompleteBody text data) = PostResponse suggestions /\
        length outs = length (default [] suggestions) /\
        forall i s, default [] suggestions !! i = Some s ->
          exists p t, placePrediction s = Some p /\ textOf p = Some t /\
                      outs !! i = Some {| outPlaceId := placeId p; description := t |}) /\
  (forall text suggestions s,
      JS.truthy (input data) = Some text ->
      post (autocompleteBody text data) = PostResponse (Some suggestions) ->
      s ∈ suggestions -> placePrediction s = None ->
      exists e, snd (googlePlacesAutocomplete post data) = inl e).
Proof.
  unfold googlePlacesAutocomplete. split.
  - intros outs. destruct (JS.truthy (input data)) as [text|]; simpl; [|discriminate].
    destruct (post (autocompleteBody text data)) as [err|suggestions] eqn:Hpost;
      [discriminate|].
    destruct (suggestionsOut (default [] suggestions)) as [t|os] eqn:Hout; [discriminate|].
    intros H. inversion H. subst os.
    destruct (suggestionsOut_inr _ _ Hout) as [Hlen Hall].
    exists text, suggestions. auto.
  - intros text suggestions s Hin Hpost Hs Hnone. rewrite Hin. simpl. rewrite Hpost. simpl.
    destruct (suggestionsOut_inl _ _ Hs Hnone) as [t ->]. eauto.
Qed.

Lemma autocomplete_maps_every_suggestion_witness :
  exists e, snd (googlePlacesAutocomplete Accounts.placesWithQuery Accounts.lagosQuery)
            = inl e.
Proof.
  apply (proj2 (autocomplete_maps_every_suggestion Accounts.placesWithQuery
                  Accounts.lagosQuery)
           "Ikeja" [Accounts.prediction "place-1" "Ikeja, Lagos"; {| placePrediction := None |}]
           {| placePrediction := None |}); try reflexivity.
  apply elem_of_cons. right. apply elem_of_cons. left. reflexivity.
Defined.

Example autocomplete_two_suggestions :
  snd (googlePlacesAutocomplete Accounts.places Accounts.lagosQuery)
  = inr [ {| outPlaceId := Some "place-1"; description := Some "Ikeja, Lagos" |};
          {| outPlaceId := Some "place-2"; description := Some "Ikeja GRA" |} ].
Proof. vm_compute. reflexivity. Qed.

(** X17. [getPlaceDetails] fails with the code [internal] in every case,
    also for a missing place id (no request is made) and for a place
    without coordinates (message [No coordinates.]); when it succeeds it has
    fetched the URL of that place once and returns the coordinates of the
    response, with the display name or the empty string. *)
Theorem getPlaceDetails_outcomes (get : string -> PlacesGetResult) (place : option string) :
  let result := getPlaceDetails get place in
  (forall e, snd result = inl e -> codeOf e = "internal") /\
  (JS.truthy place = None ->
   result = ([], inl (httpsError "internal" "placeId required."))) /\
  (forall p details,
      JS.truthy place = Some p -> get (placeUrl p) = GetResponse details ->
      location details = None ->
      result = ([placeUrl p], inl (httpsError "internal" "No coordinates."))) /\
  (forall out,
      snd result = inr out ->
      exists p details point,
        JS.truthy place = Some p /\ fst result = [placeUrl p] /\
        get (placeUrl p) = GetResponse details /\ location details = Some point /\
        lat out = latitude point /\ lng out = longitude point /\
        placeName out = JS.orElse (displayNameText details) "").
Proof.
  intros result. subst result. unfold getPlaceDetails.
  split; [|split; [|split]].
  - intros e. destruct (JS.truthy place) as [p|]; simpl.
    + destruct (get (placeUrl p)) as [err|details]; [intros H; inversion H; reflexivity|].
      destruct (location details); intros H; inversion H. reflexivity.
    + intros H. inversion H. reflexivity.
  - intros ->. reflexivity.
  - intros p details -> -> ->. reflexivity.
  - intros out. destruct (JS.truthy place) as [p|]; simpl; [|discriminate].
    destruct (get (placeUrl p)) as [err|details] eqn:Hget; [discriminate|].
    destruct (location details) as [point|] eqn:Hloc; [|discriminate].
    intros H. inversion H. subst out. simpl.
    exists p, details, point. auto 10.
Qed.

Lemma getPlaceDetails_outcomes_witness :
  getPlaceDetails Accounts.placeDetails (Some "place-2")
  = ([placeUrl "place-2"], inl (httpsError "internal" "No coordinates.")).
Proof.
  apply (proj1 (proj2 (proj2 (getPlaceDetails_outcomes Accounts.placeDetails
                                (Some "place-2"))))
           "place-2" {| location := None; displayNameText := Some "Nowhere" |});
    vm_compute; reflexivity.
Defined.

Example getPlaceDetails_found :
  snd (getPlaceDetails Accounts.placeDetails (Some "place-1"))
  = inr {| lat := 13 # 2; lng := 33 # 10; placeName := "" |}.
Proof. vm_compute. reflexivity. Qed.

(** ** Account deletion *)

Section DeleteUserFacts.
Variable transport : Mail -> bool.
Variable receiver : option string.
Variable thirtyDaysAfter : Z -> Z.
Variable noDocumentMessage : string -> string.
Variable noAccountMessage : string -> string.

Local Abbreviation deleteUser_ :=
  (deleteUser transport receiver thirtyDaysAfter noDocumentMessage noAccountMessage).
Local Abbreviation deleteUserSteps_ :=
  (deleteUserSteps transport receiver thirtyDaysAfter noDocumentMessage noAccountMessage).

(** X18. Every failure of [deleteUser] reaches the client with the code
    [internal] and a message that starts with [Failed to delete account: ];
    this includes the unauthenticated call, which changes no store and
    sends no mail. *)
Theorem deleteUser_errors_are_internal (now : Z) (authUid : option string) (b : Backend) :
  (forall e, snd (deleteUser_ now authUid b) = inl e ->
             codeOf e = "internal" /\
             exists why, messageOf e = "Failed to delete account: " ++ why) /\
  (JS.truthy authUid = None ->
   deleteUser_ now authUid b
   = (b, inl (httpsError "internal"
                "Failed to delete account: User must be authenticated to delete their account."))).
Proof.
  unfold deleteUser. split.
  - intros e. destruct (JS.truthy authUid) as [userId|]; simpl.
    + destruct (deleteUserSteps_ now userId b) as [b' [t|text]]; simpl;
        intros H; inversion H. split; [reflexivity|]. eauto.
    + intros H. inversion H. split; [reflexivity|]. eauto.
  - intros ->. reflexivity.
Qed.

(** X19. For an authenticated user with a profile and an account,
    [deleteUser] succeeds and leaves: the profile in place, marked for
    deletion in thirty days; no donor document of the user, daytime or
    nighttime, and every other donor document as it was; no provider
    document of the user and every other provider as it was; of the blood
    requests exactly those of other requesters; and every account but the
    user's. *)
Theorem deleteUser_removes_the_users_data (now : Z) (authUid : option string)
    (userId : string) (b : Backend) :
  JS.truthy authUid = Some userId ->
  is_Some (usersCol b !! userId) ->
  userId ∈ authUsers b ->
  let after := fst (deleteUser_ now authUid b) in
  snd (deleteUser_ now authUid b) = inr deleted /\
  usersCol after = usersCol b /\
  deletionMarks after !! userId
  = Some {| markedForDeletion := true; deletionScheduledAt := thirtyDaysAfter now;
            updatedAt := serverTimestamp |} /\
  (forall other, other <> userId -> deletionMarks after !! other = deletionMarks b !! other) /\
  donorsCol after !! (userId ++ "_daytime") = None /\
  donorsCol after !! (userId ++ "_nighttime") = None /\
  (forall docId, docId <> userId ++ "_daytime" -> docId <> userId ++ "_nighttime" ->
                 donorsCol after !! docId = donorsCol b !! docId) /\
  providersCol after !! userId = None /\
  (forall other, other <> userId -> providersCol after !! other = providersCol b !! other) /\
  (forall docId requester,
      bloodRequests after !! docId = Some requester <->
      bloodRequests b !! docId = Some requester /\ requester <> userId) /\
  (forall account, account ∈ authUsers after <-> account ∈ authUsers b /\ account <> userId).
Proof.
  intros Hauth [userData Hprofile] Haccount after. subst after.
  unfold deleteUser, deleteUserSteps. rewrite Hauth, Hprofile.
  destruct (decide (userId ∈ authUsers b)) as [_|Hno]; [|contradiction]. simpl.
  split; [reflexivity|]. split; [reflexivity|].
  split; [apply lookup_insert_eq|].
  split; [intros other Hother; apply lookup_insert_ne; congruence|].
  split.
  { destruct (decide (userId ++ "_nighttime" = userId ++ "_daytime")) as [Heq|Hne].
    - rewrite Heq. apply lookup_delete_eq.
    - rewrite lookup_delete_ne by exact Hne. apply lookup_delete_eq. }
  split; [apply lookup_delete_eq|].
  split.
  { intros docId Hday Hnight. rewrite !lookup_delete_ne by congruence. reflexivity. }
  split; [apply lookup_delete_eq|].
  split; [intros other Hother; apply lookup_delete_ne; congruence|].
  split.
  { intros docId requester. rewrite map_lookup_filter_Some. simpl. tauto. }
  intros account. rewrite elem_of_difference, elem_of_singleton. tauto.
Qed.

(** X20. For an authenticated user without a document in [users] the
    update of that document fails: [deleteUser] reports the failure and
    deletes nothing, although the admin mail about the deletion has been
    sent (when the transport delivers it). *)
Theorem deleteUser_without_profile_deletes_nothing (now : Z) (authUid : option string)
    (userId : string) (b : Backend) :
  JS.truthy authUid = Some userId ->
  usersCol b !! userId = None ->
  let after := fst (deleteUser_ now authUid b) in
  snd (deleteUser_ now authUid b)
  = inl (httpsError "internal" ("Failed to delete account: " ++ noDocumentMessage userId)) /\
  usersCol after = usersCol b /\ deletionMarks after = deletionMarks b /\
  donorsCol after = donorsCol b /\ providersCol after = providersCol b /\
  bloodRequests after = bloodRequests b /\ authUsers after = authUsers b /\
  sentMail after
  = (sentMail b ++
       (if transport (mailOptions receiver (Some (detailsOfMissingUser userId))
                        (Some "Account Deletion"))
        then [mailOptions receiver (Some (detailsOfMissingUser userId))
                (Some "Account Deletion")]
        else []))%list.
Proof.
  intros Hauth Hprofile after. subst after.
  unfold deleteUser, deleteUserSteps. rewrite Hauth, Hprofile. simpl.
  repeat (split; [reflexivity|]).
  unfold sendAdminNotification.
  destruct (transport _); reflexivity.
Qed.

(** X21. The deletion is not atomic. When the profile exists but the
    account is already gone from Firebase Auth, [deleteUser] fails with
    [internal] after it has marked the profile and removed the donor
    documents, the provider document and the blood requests of the user. *)
Theorem deleteUser_without_account_fails_after_deleting (now : Z)
    (authUid : option string) (userId : string) (b : Backend) :
  JS.truthy authUid = Some userId ->
  is_Some (usersCol b !! userId) ->
  userId ∉ authUsers b ->
  let after := fst (deleteUser_ now authUid b) in
  snd (deleteUser_ now authUid b)
  = inl (httpsError "internal" ("Failed to delete account: " ++ noAccountMessage userId)) /\
  is_Some (deletionMarks after !! userId) /\
  donorsCol after !! (userId ++ "_daytime") = None /\
  donorsCol after !! (userId ++ "_nighttime") = None /\
  providersCol after !! userId = None /\
  (forall docId, bloodRequests after !! docId <> Some userId) /\
  authUsers after = authUsers b.
Proof.
  intros Hauth [userData Hprofile] Haccount after. subst after.
  unfold deleteUser, deleteUserSteps. rewrite Hauth, Hprofile.
  destruct (decide (userId ∈ authUsers b)) as [Hyes|_]; [contradiction|]. simpl.
  split; [reflexivity|].
  split; [rewrite lookup_insert_eq; eauto|].
  split.
  { destruct (decide (userId ++ "_nighttime" = userId ++ "_daytime")) as [Heq|Hne].
    - rewrite Heq. apply lookup_delete_eq.
    - rewrite lookup_delete_ne by exact Hne. apply lookup_delete_eq. }
  split; [apply lookup_delete_eq|].
  split; [apply lookup_delete_eq|].
  split; [|reflexivity].
  intros docId Hin. apply map_lookup_filter_Some in Hin. simpl in Hin. tauto.
Qed.

End DeleteUserFacts.

(** X22. Whether the admin mail is delivered or not changes nothing else:
    [sendAdminNotification] catches the failure of the transport, so
    [deleteUser] returns the same result and leaves the same stores with a
    transport that delivers and with one that does not. *)
Theorem deleteUser_ignores_mail_failure (transport1 transport2 : Mail -> bool)
    (receiver : option string) (thirtyDaysAfter : Z -> Z)
    (noDocumentMessage noAccountMessage : string -> string)
    (now : Z) (authUid : option string) (b : Backend) :
  let run1 :=
    deleteUser transport1 receiver thirtyDaysAfter noDocumentMessage noAccountMessage
      now authUid b in
  let run2 :=
    deleteUser transport2 receiver thirtyDaysAfter noDocumentMessage noAccountMessage
      now authUid b in
  snd run1 = snd run2 /\
  usersCol (fst run1) = usersCol (fst run2) /\
  deletionMarks (fst run1) = deletionMarks (fst run2) /\
  donorsCol (fst run1) = donorsCol (fst run2) /\
  providersCol (fst run1) = providersCol (fst run2) /\
  bloodRequests (fst run1) = bloodRequests (fst run2) /\
  authUsers (fst run1) = authUsers (fst run2).
Proof.
  intros run1 run2. subst run1 run2. unfold deleteUser, deleteUserSteps.
  destruct (JS.truthy authUid) as [userId|]; [|simpl; auto 10].
  destruct (usersCol b !! userId) as [userData|]; [|simpl; auto 10].
  destruct (decide (userId ∈ authUsers b)); simpl; auto 10.
Qed.

Lemma deleteUser_errors_are_internal_witness :
  deleteUser Accounts.delivers None Accounts.thirtyDaysAfter Accounts.noDocumentMessage
    Accounts.noAccountMessage 0 None Accounts.backend
  = (Accounts.backend,
     inl (httpsError "internal"
            "Failed to delete account: User must be authenticated to delete their account.")).
Proof.
  apply (deleteUser_errors_are_internal Accounts.delivers None Accounts.thirtyDaysAfter
           Accounts.noDocumentMessage Accounts.noAccountMessage 0 None Accounts.backend).
  reflexivity.
Defined.

Lemma deleteUser_removes_the_users_data_witness :
  donorsCol (fst (deleteUser Accounts.delivers None Accounts.thirtyDaysAfter
                    Accounts.noDocumentMessage Accounts.noAccountMessage 0 (Some "u1")
                    Accounts.backend)) !! "u2_daytime"
  = Some (data (Scenario.donorDoc "u2" "daytime" "O-" 3)).
Proof.
  destruct (deleteUser_removes_the_users_data Accounts.delivers None
              Accounts.thirtyDaysAfter Accounts.noDocumentMessage Accounts.noAccountMessage
              0 (Some "u1") "u1" Accounts.backend)
    as [_ [_ [_ [_ [_ [_ [Hothers _]]]]]]].
  - reflexivity.
  - vm_compute. eauto.
  - vm_compute. reflexivity.
  - rewrite Hothers; [vm_compute; reflexivity | discriminate | discriminate].
Defined.

Lemma deleteUser_without_profile_deletes_nothing_witness :
  donorsCol (fst (deleteUser Accounts.delivers None Accounts.thirtyDaysAfter
                    Accounts.noDocumentMessage Accounts.noAccountMessage 0 (Some "u9")
                    Accounts.backend))
  = donorsCol Accounts.backend.
Proof.
  apply (deleteUser_without_profile_deletes_nothing Accounts.delivers None
           Accounts.thirtyDaysAfter Accounts.noDocumentMessage Accounts.noAccountMessage
           0 (Some "u9") "u9" Accounts.backend); vm_compute; reflexivity.
Defined.

Lemma deleteUser_without_account_fails_after_deleting_witness :
  donorsCol (fst (deleteUser Accounts.delivers None Accounts.thirtyDaysAfter
                    Accounts.noDocumentMessage Accounts.noAccountMessage 0 (Some "u1")
                    Accounts.backendWithoutAccount)) !! ("u1" ++ "_daytime")
  = None.
Proof.
  apply (deleteUser_without_account_fails_after_deleting Accounts.delivers None
           Accounts.thirtyDaysAfter Accounts.noDocumentMessage Accounts.noAccountMessage
           0 (Some "u1") "u1" Accounts.backendWithoutAccount).
  - reflexivity.
  - vm_compute. eauto.
  - vm_compute. intros H. discriminate H.
Defined.

Example deleteUser_scenario :
  let after :=
    fst (deleteUser Accounts.delivers None Accounts.thirtyDaysAfter
           Accounts.noDocumentMessage Accounts.noAccountMessage 0 (Some "u1")
           Accounts.backend) in
  map fst (map_to_list (donorsCol after)) = ["u2_daytime"] /\
  map_to_list (bloodRequests after) = [("request-b", "u2")] /\
  is_Some (usersCol after !! "u1") /\
  map mailTo (sentMail after) = [adminEmail].
Proof. vm_compute. repeat split; eauto. Qed.
